(** * Dynamic MCP tool registration (mcp_tools.py): a shallow embedding

    The module reads a list of MCP servers from the environment, asks each
    server for its tools over JSON-RPC, filters them by a whitelist and wraps
    each one as a client tool of the agent framework.

    The embedding follows the Python text function by function.  The values
    that flow through it are JSON values as [json] produces them, so the
    dynamic checks of the interpreter (subscripting, [.get], [in], [len],
    truth tests) are written out with the exceptions they raise.  The
    environment, the JSON reader and the HTTP transport are collaborators of
    the module; they are variables of the main section. *)

From Stdlib Require Import String Ascii List ZArith Bool Arith Lia.
From Stdlib Require Import DecimalString.
From Equations.Prop Require Import Equations Logic.
Import ListNotations.

Local Open Scope list_scope.
Local Open Scope string_scope.

(** ** Python values and the built-in operations the module uses *)

Module Py.

(** What [json.loads] and [response.json()] can return, floats left out.
    A character of a [str] is a code point below 256.  A [dict] keeps its
    insertion order, which [str] and iteration show. *)
#[warnings="-register-all"]
Inductive value : Type :=
| PNone
| PBool (b : bool)
| PInt (z : Z)
| PStr (s : string)
| PList (l : list value)
| PDict (d : list (string * value)).

(** The exceptions the module can meet, all subclasses of [Exception].
    [OtherError] stands for the transport's own classes and any other one. *)
Inductive exn : Type :=
| KeyError (key : string)
| TypeError (msg : string)
| AttributeError (msg : string)
| JSONDecodeError (msg : string)
| OtherError (cls msg : string).

Definition result (A : Type) : Type := (exn + A)%type.

Definition type_name (v : value) : string :=
  match v with
  | PNone => "NoneType"
  | PBool _ => "bool"
  | PInt _ => "int"
  | PStr _ => "str"
  | PList _ => "list"
  | PDict _ => "dict"
  end.

(** [isinstance(v, list)], [isinstance(v, dict)], [isinstance(v, str)]. *)
Definition is_list (v : value) : bool :=
  match v with PList _ => true | _ => false end.
Definition is_dict (v : value) : bool :=
  match v with PDict _ => true | _ => false end.
Definition is_str (v : value) : bool :=
  match v with PStr _ => true | _ => false end.

(** *** [str] and [repr] *)

Definition str_of_Z (z : Z) : string := NilZero.string_of_int (Z.to_int z).

Definition hex_digit (n : nat) : ascii :=
  match String.get n "0123456789abcdef" with
  | Some c => c
  | None => "0"%char
  end.

Definition dquote : ascii := "034"%char.
Definition newline : string := String "010"%char "".

Definition printable (c : ascii) : bool :=
  let n := nat_of_ascii c in
  (32 <=? n)%nat && negb ((127 <=? n)%nat && (n <=? 160)%nat) && negb (n =? 173)%nat.

Fixpoint contains_char (c : ascii) (s : string) : bool :=
  match s with
  | EmptyString => false
  | String a s' => Ascii.eqb a c || contains_char c s'
  end.

Definition repr_char (quote c : ascii) : string :=
  if Ascii.eqb c quote || Ascii.eqb c "\"%char then String "\"%char (String c "")
  else if Ascii.eqb c "009"%char then "\t"
  else if Ascii.eqb c "010"%char then "\n"
  else if Ascii.eqb c "013"%char then "\r"
  else if printable c then String c ""
  else
    let n := nat_of_ascii c in
    String "\"%char
      (String "x"%char (String (hex_digit (n / 16)) (String (hex_digit (n mod 16)) ""))).

Fixpoint repr_chars (quote : ascii) (s : string) : string :=
  match s with
  | EmptyString => ""
  | String c s' => repr_char quote c ++ repr_chars quote s'
  end.

(** [repr] of a [str]: single quotes, unless the text has a single quote and
    no double quote. *)
Definition repr_str (s : string) : string :=
  let quote :=
    if contains_char "'"%char s && negb (contains_char dquote s)
    then dquote else "'"%char in
  String quote (repr_chars quote s ++ String quote "").

Fixpoint repr (v : value) : string :=
  match v with
  | PNone => "None"
  | PBool true => "True"
  | PBool false => "False"
  | PInt z => str_of_Z z
  | PStr s => repr_str s
  | PList l => "[" ++ String.concat ", " (map repr l) ++ "]"
  | PDict d =>
      "{" ++ String.concat ", "
               (map (fun kv => repr_str (fst kv) ++ ": " ++ repr (snd kv)) d)
          ++ "}"
  end.

(** [str(v)], also what an f-string field [{v}] prints. *)
Definition str (v : value) : string :=
  match v with
  | PStr s => s
  | _ => repr v
  end.

(** [str(e)] for an exception. *)
Definition exn_str (e : exn) : string :=
  match e with
  | KeyError k => repr_str k
  | TypeError m | AttributeError m | JSONDecodeError m | OtherError _ m => m
  end.

(** *** Truth, equality, membership, length *)

Definition truthy (v : value) : bool :=
  match v with
  | PNone => false
  | PBool b => b
  | PInt z => negb (z =? 0)%Z
  | PStr s => negb (s =? "")
  | PList l => match l with [] => false | _ => true end
  | PDict d => match d with [] => false | _ => true end
  end.

Fixpoint lookup (k : string) (d : list (string * value)) : option value :=
  match d with
  | [] => None
  | (k', v) :: d' => if k' =? k then Some v else lookup k d'
  end.

Definition num_of_bool (b : bool) : Z := if b then 1%Z else 0%Z.

(** [a == b].  [True == 1] holds; two dicts are compared without order. *)
Fixpoint equal (a b : value) {struct a} : bool :=
  match a, b with
  | PNone, PNone => true
  | PBool x, PBool y => Bool.eqb x y
  | PBool x, PInt y => (num_of_bool x =? y)%Z
  | PInt x, PBool y => (x =? num_of_bool y)%Z
  | PInt x, PInt y => (x =? y)%Z
  | PStr x, PStr y => x =? y
  | PList xs, PList ys =>
      (fix all2 (xs ys : list value) {struct xs} : bool :=
         match xs, ys with
         | [], [] => true
         | x :: xs', y :: ys' => equal x y && all2 xs' ys'
         | _, _ => false
         end) xs ys
  | PDict d1, PDict d2 =>
      (List.length d1 =? List.length d2)%nat &&
      (fix sub (d : list (string * value)) {struct d} : bool :=
         match d with
         | [] => true
         | (k, v) :: d' =>
             match lookup k d2 with
             | Some v' => equal v v' && sub d'
             | None => false
             end
         end) d1
  | _, _ => false
  end.

(** [needle in hay] on text: some suffix of [hay] starts with [needle]. *)
Fixpoint substring_of (needle hay : string) : bool :=
  String.prefix needle hay ||
  match hay with
  | EmptyString => false
  | String _ hay' => substring_of needle hay'
  end.

(** [item in container]. *)
Definition contains (container item : value) : result bool :=
  match container with
  | PList l => inr (existsb (fun x => equal x item) l)
  | PDict d =>
      match item with
      | PStr k => inr (match lookup k d with Some _ => true | None => false end)
      | PList _ | PDict _ =>
          inl (TypeError ("unhashable type: '" ++ type_name item ++ "'"))
      | _ => inr false
      end
  | PStr s =>
      match item with
      | PStr sub => inr (substring_of sub s)
      | _ => inl (TypeError ("'in <string>' requires string as left operand, not "
                               ++ type_name item))
      end
  | _ => inl (TypeError ("argument of type '" ++ type_name container
                           ++ "' is not iterable"))
  end.

(** [len(v)]. *)
Definition len (v : value) : result nat :=
  match v with
  | PStr s => inr (String.length s)
  | PList l => inr (List.length l)
  | PDict d => inr (List.length d)
  | _ => inl (TypeError ("object of type '" ++ type_name v ++ "' has no len()"))
  end.

(** *** Subscript, [.get], [.items], iteration, [join] *)

(** [v[key]] with a text key. *)
Definition getitem (v : value) (key : string) : result value :=
  match v with
  | PDict d =>
      match lookup key d with
      | Some x => inr x
      | None => inl (KeyError key)
      end
  | PList _ => inl (TypeError "list indices must be integers or slices, not str")
  | PStr _ => inl (TypeError "string indices must be integers, not 'str'")
  | _ => inl (TypeError ("'" ++ type_name v ++ "' object is not subscriptable"))
  end.

Definition no_attribute (v : value) (attr : string) : exn :=
  AttributeError ("'" ++ type_name v ++ "' object has no attribute '" ++ attr ++ "'").

(** [v.get(key, default)]. *)
Definition get (v : value) (key : string) (default : value) : result value :=
  match v with
  | PDict d =>
      match lookup key d with
      | Some x => inr x
      | None => inr default
      end
  | _ => inl (no_attribute v "get")
  end.

(** [v.items()]. *)
Definition items (v : value) : result (list (string * value)) :=
  match v with
  | PDict d => inr d
  | _ => inl (no_attribute v "items")
  end.

Definition chars (s : string) : list value :=
  map (fun c => PStr (String c "")) (list_ascii_of_string s).

(** The elements a [for] loop over [v] visits. *)
Definition iter (v : value) : result (list value) :=
  match v with
  | PList l => inr l
  | PDict d => inr (map (fun kv => PStr (fst kv)) d)
  | PStr s => inr (chars s)
  | _ => inl (TypeError ("'" ++ type_name v ++ "' object is not iterable"))
  end.

(** [sep.join(xs)]: every item has to be a [str]. *)
Fixpoint join_from (i : nat) (xs : list value) : result (list string) :=
  match xs with
  | [] => inr []
  | PStr s :: xs' =>
      match join_from (S i) xs' with
      | inr ss => inr (s :: ss)
      | inl e => inl e
      end
  | x :: _ =>
      inl (TypeError ("sequence item " ++ str_of_Z (Z.of_nat i)
                        ++ ": expected str instance, " ++ type_name x ++ " found"))
  end.

Definition join (sep : string) (xs : list value) : result string :=
  match join_from 0 xs with
  | inr ss => inr (String.concat sep ss)
  | inl e => inl e
  end.

End Py.

Import Py.

(** ** Env Substitution: [re.sub(r'\$\{(\w+)\}', replace, value)] *)

Module Re.

(** [\w] on code points below 256. *)
Definition is_word (c : ascii) : bool :=
  let n := nat_of_ascii c in
  (((48 <=? n) && (n <=? 57)) || ((65 <=? n) && (n <=? 90)) || (n =? 95)
  || ((97 <=? n) && (n <=? 122)) || (n =? 170) || ((178 <=? n) && (n <=? 179))
  || (n =? 181) || ((185 <=? n) && (n <=? 186)) || ((188 <=? n) && (n <=? 190))
  || ((192 <=? n) && (n <=? 214)) || ((216 <=? n) && (n <=? 246))
  || ((248 <=? n) && (n <=? 255)))%nat.

(** The longest run of word characters at the head, and what follows it. *)
Fixpoint span_word (s : string) : string * string :=
  match s with
  | EmptyString => (""%string, ""%string)
  | String c s' =>
      if is_word c
      then let (w, r) := span_word s' in (String c w, r)
      else (""%string, s)
  end.

(** A match of the pattern at the head of [s]: the captured name and the
    text after the closing brace.  [\w+] is greedy and a brace is no word
    character, so the only candidate is the longest run. *)
Definition match_head (s : string) : option (string * string) :=
  match s with
  | String a (String b s') =>
      if (a =? "$")%char && (b =? "{")%char then
        match span_word s' with
        | (String c w, String d rest) =>
            if (d =? "}")%char then Some (String c w, rest) else None
        | _ => None
        end
      else None
  | _ => None
  end.

(** [re.sub(pattern, repl, s)] with a function [repl] of the captured name:
    scan from the left; at a match emit the replacement and go on after it,
    otherwise copy one character. *)
Equations? sub (repl : string -> string) (s : string) : string
  by wf (String.length s) lt :=
  sub repl EmptyString := EmptyString;
  sub repl (String c s') with inspect (match_head (String c s')) := {
    | exist _ (Some (name, rest)) Hm := repl name ++ sub repl rest;
    | exist _ None _ := String c (sub repl s') }.
Proof.
  clear sub.
  assert (Hspan : forall t, String.length (snd (span_word t)) <= String.length t).
  { induction t as [|a t IH]; simpl; [lia|].
    destruct (is_word a); simpl; [|lia].
    destruct (span_word t) as [u r]; simpl in *; lia. }
  change (match_head (String c s') = Some (name, rest)) in Hm.
  unfold match_head in Hm.
  destruct s' as [|b t]; [discriminate|].
  destruct ((c =? "$")%char && (b =? "{")%char); [|discriminate].
  specialize (Hspan t).
  destruct (span_word t) as [[|x u] [|d r]]; try discriminate.
  destruct (d =? "}")%char; [|discriminate].
  injection Hm as _ <-. simpl in *. lia.
Qed.

End Re.

(** ** Effects: the log and the network

    A computation reads and writes a [world]: the log records written so
    far and the number of HTTP requests sent so far.  An exception leaves
    the world as it was when it was raised. *)

Inductive level : Type := DEBUG | INFO | WARNING | ERROR.

Record world : Type := mkWorld {
  sent : nat;
  log : list (level * string)
}.

Definition M (A : Type) : Type := world -> result A * world.

Definition ret {A} (a : A) : M A := fun w => (inr a, w).

Definition bind {A B} (m : M A) (k : A -> M B) : M B :=
  fun w =>
    match m w with
    | (inr a, w') => k a w'
    | (inl e, w') => (inl e, w')
    end.

Notation "x <- m ;; k" := (bind m (fun x => k))
  (at level 61, m at next level, right associativity).
Notation "m ;;; k" := (bind m (fun _ => k))
  (at level 61, right associativity).

(** A built-in operation that returns or raises, without touching the world. *)
Definition lift {A} (r : result A) : M A := fun w => (r, w).

(** [try: body except <classes>: handler e]. *)
Definition try_except {A} (body : M A) (catches : exn -> bool)
           (handler : exn -> M A) : M A :=
  fun w =>
    match body w with
    | (inl e, w') => if catches e then handler e w' else (inl e, w')
    | r => r
    end.

(** [except Exception]: every class of [exn]. *)
Definition Exception (e : exn) : bool := true.

(** [except json.JSONDecodeError]. *)
Definition is_JSONDecodeError (e : exn) : bool :=
  match e with JSONDecodeError _ => true | _ => false end.

(** The world after one more log record. *)
Definition logged (w : world) (lvl : level) (msg : string) : world :=
  mkWorld (sent w) (log w ++ [(lvl, msg)])%list.

(** [logger.<lvl>(msg)]. *)
Definition logger (lvl : level) (msg : string) : M unit :=
  fun w => (inr tt, logged w lvl msg).

(** The whole of [httpx.post(url, json=, headers=, timeout=)], the
    [raise_for_status()] after it and [response.json()]. *)
Record request : Type := mkRequest {
  req_url : value;
  req_json : value;
  req_headers : list (string * string);
  req_timeout : Z
}.

(** ** The agent framework's types *)

Record ToolCall : Type := mkToolCall {
  tc_call_id : string;
  tc_tool_name : string;
  tc_arguments : value              (* a [str] or a [dict] *)
}.

Record CompletionMessage : Type := mkCompletionMessage {
  tool_calls : option (list ToolCall)
}.

Record ToolResponse : Type := mkToolResponse {
  call_id : string;
  tool_name : string;
  content : string;
  metadata : list (string * value)
}.

(** A coroutine object: what it does when awaited, and the awaits its body
    holds. *)
Inductive Coroutine (A : Type) : Type :=
| Return (body : M A)
| Await (B : Type) (inner : Coroutine B) (k : B -> Coroutine A).
Arguments Return {A} body.
Arguments Await {A} B inner k.

(** Driving a coroutine to its end. *)
Fixpoint await {A} (c : Coroutine A) : M A :=
  match c with
  | Return body => body
  | Await B inner k => fun w =>
      match await inner w with
      | (inr b, w') => await (k b) w'
      | (inl e, w') => (inl e, w')
      end
  end.

(** ** The module *)

Section McpTools.

(** [os.environ]. *)
Variable environ : string -> option string.

(** [json.loads] on a [str]. *)
Variable json_loads : string -> result value.

(** What the [n]-th request sent by the process meets: the parsed body of a
    2xx answer, or the exception raised on the way to it. *)
Variable http_post : nat -> request -> result value.

(** [os.getenv(name, default)]. *)
Definition getenv (name default : string) : string :=
  match environ name with
  | Some v => v
  | None => default
  end.

Definition post_json (req : request) : M value :=
  fun w => (http_post (sent w) req, mkWorld (S (sent w)) (log w)).

Definition substitute_env_vars (value : string) : string :=
  let replace := fun var_name => getenv var_name "" in
  Re.sub replace value.

Definition load_mcp_config : M value :=
  let config_str := getenv "MCP_SERVERS_JSON" "[]" in
  let config_str := substitute_env_vars config_str in
  try_except
    (config <- lift (json_loads config_str) ;;
     n <- lift (len config) ;;
     logger INFO ("Loaded " ++ str_of_Z (Z.of_nat n) ++ " MCP server configurations") ;;;
     ret config)
    is_JSONDecodeError
    (fun e =>
       logger ERROR ("Failed to parse MCP_SERVERS_JSON: " ++ exn_str e) ;;;
       ret (PList [])).

(** [{k: substitute_env_vars(v) for k, v in headers.items()}]; [re.sub]
    refuses a value that is no [str]. *)
Fixpoint substitute_items (kvs : list (string * value))
  : result (list (string * string)) :=
  match kvs with
  | [] => inr []
  | (k, PStr v) :: kvs' =>
      match substitute_items kvs' with
      | inr hs => inr ((k, substitute_env_vars v) :: hs)
      | inl e => inl e
      end
  | (k, v) :: _ =>
      inl (TypeError ("expected string or bytes-like object, got '"
                        ++ type_name v ++ "'"))
  end.

Definition substitute_headers (headers : value) : result (list (string * string)) :=
  match items headers with
  | inr kvs => substitute_items kvs
  | inl e => inl e
  end.

Definition tools_list_request : value :=
  PDict [("jsonrpc", PStr "2.0"); ("method", PStr "tools/list"); ("id", PInt 1)].

Definition discover_mcp_tools (server_config : value) : M value :=
  url <- lift (getitem server_config "url") ;;
  headers <- lift (get server_config "headers" (PDict [])) ;;
  headers <- lift (substitute_headers headers) ;;
  try_except
    (result <- post_json (mkRequest url tools_list_request headers 30) ;;
     has_result <- lift (contains result (PStr "result")) ;;
     has_tools <-
       (if has_result
        then r <- lift (getitem result "result") ;; lift (contains r (PStr "tools"))
        else ret false) ;;
     if has_tools then
       r <- lift (getitem result "result") ;;
       tools <- lift (getitem r "tools") ;;
       n <- lift (len tools) ;;
       name <- lift (getitem server_config "name") ;;
       logger INFO ("Discovered " ++ str_of_Z (Z.of_nat n) ++ " tools from "
                      ++ Py.str name) ;;;
       ret tools
     else
       name <- lift (getitem server_config "name") ;;
       logger WARNING ("No tools found in response from " ++ Py.str name) ;;;
       ret (PList []))
    Exception
    (fun e =>
       name <- lift (getitem server_config "name") ;;
       logger ERROR ("Failed to discover tools from " ++ Py.str name ++ ": "
                       ++ exn_str e) ;;;
       ret (PList [])).

Definition tools_call_request (tool_name arguments : value) : value :=
  PDict [("jsonrpc", PStr "2.0"); ("method", PStr "tools/call");
         ("params", PDict [("name", tool_name); ("arguments", arguments)]);
         ("id", PInt 1)].

(** [[c.get("text", str(c)) for c in content if isinstance(c, dict)]]. *)
Fixpoint content_texts (content : list value) : list value :=
  match content with
  | [] => []
  | PDict d :: content' =>
      match lookup "text" d with
      | Some t => t
      | None => PStr (Py.str (PDict d))
      end :: content_texts content'
  | _ :: content' => content_texts content'
  end.

Definition call_mcp_tool (server_config tool_name arguments : value) : M string :=
  url <- lift (getitem server_config "url") ;;
  headers <- lift (get server_config "headers" (PDict [])) ;;
  headers <- lift (substitute_headers headers) ;;
  try_except
    (result <- post_json (mkRequest url (tools_call_request tool_name arguments)
                            headers 60) ;;
     has_result <- lift (contains result (PStr "result")) ;;
     if has_result then
       r <- lift (getitem result "result") ;;
       content <- lift (get r "content" (PList [])) ;;
       match content with
       | PList l =>
           let texts := content_texts l in
           match texts with
           | [] => ret (Py.str content)
           | _ => lift (join newline texts)
           end
       | _ => ret (Py.str content)
       end
     else
       has_error <- lift (contains result (PStr "error")) ;;
       if has_error then
         err <- lift (getitem result "error") ;;
         message <- lift (get err "message" (PStr "Unknown error")) ;;
         ret ("Error: " ++ Py.str message)
       else ret (Py.str result))
    Exception
    (fun e =>
       logger ERROR ("Failed to call MCP tool " ++ Py.str tool_name ++ ": "
                       ++ exn_str e) ;;;
       ret ("Error calling tool: " ++ exn_str e)).

(** *** [class MCPClientTool(ClientTool)] *)

Record MCPClientTool : Type := mkMCPClientTool {
  server_config : value;
  tool_definition : value;
  _name : string;
  _description : value;
  _parameters : value
}.

(** [MCPClientTool.__init__]. *)
Definition MCPClientTool_init (server_config tool_definition : value)
  : result MCPClientTool :=
  match getitem server_config "name" with
  | inl e => inl e
  | inr sname =>
  match getitem tool_definition "name" with
  | inl e => inl e
  | inr tname =>
  match get tool_definition "description" (PStr "") with
  | inl e => inl e
  | inr description =>
  match get tool_definition "inputSchema" (PDict []) with
  | inl e => inl e
  | inr parameters =>
      inr (mkMCPClientTool server_config tool_definition
             (Py.str sname ++ "_" ++ Py.str tname) description parameters)
  end end end end.

Definition get_name (self : MCPClientTool) : string := _name self.
Definition get_description (self : MCPClientTool) : value := _description self.
Definition get_params_definition (self : MCPClientTool) : value := _parameters self.

Definition get_tool_definition (self : MCPClientTool) : value :=
  PDict [("type", PStr "function");
         ("function", PDict [("name", PStr (_name self));
                             ("description", _description self);
                             ("parameters", _parameters self)])].

(** [tool_call.arguments], decoded when it is text. *)
Definition parse_arguments (arguments : value) : M value :=
  match arguments with
  | PStr s =>
      try_except (lift (json_loads s)) is_JSONDecodeError (fun _ => ret (PDict []))
  | _ => ret arguments
  end.

Definition run (self : MCPClientTool) (messages : list CompletionMessage)
  : M ToolResponse :=
  match rev messages with
  | [] => ret (mkToolResponse "unknown" (_name self) "No messages provided" [])
  | last_message :: _ =>
      match tool_calls last_message with
      | None | Some [] =>
          ret (mkToolResponse "unknown" (_name self) "No tool calls in message" [])
      | Some (tool_call :: _) =>
          arguments <- parse_arguments (tc_arguments tool_call) ;;
          tname <- lift (getitem (tool_definition self) "name") ;;
          result <- call_mcp_tool (server_config self) tname arguments ;;
          sname <- lift (getitem (server_config self) "name") ;;
          ret (mkToolResponse (tc_call_id tool_call) (_name self) result
                 [("mcp_server", sname)])
      end
  end.

(** [async def async_run]: the body is the call of [run], with no await. *)
Definition async_run (self : MCPClientTool) (messages : list CompletionMessage)
  : Coroutine ToolResponse :=
  Return (run self messages).

(** *** Registry Builder *)

(** The inner loop, [for tool_def in mcp_tools], on the list being built. *)
Fixpoint register_tools (server_config tool_whitelist : value)
         (mcp_tools : list value) (tools : list MCPClientTool)
  : M (list MCPClientTool) :=
  match mcp_tools with
  | [] => ret tools
  | tool_def :: mcp_tools' =>
      tool_name <- lift (get tool_def "name" (PStr "")) ;;
      skip <-
        (if truthy tool_whitelist
         then inside <- lift (contains tool_whitelist tool_name) ;; ret (negb inside)
         else ret false) ;;
      if skip then
        logger DEBUG ("Skipping tool " ++ Py.str tool_name ++ " (not in whitelist)") ;;;
        register_tools server_config tool_whitelist mcp_tools' tools
      else
        client_tool <- lift (MCPClientTool_init server_config tool_def) ;;
        logger INFO ("Registered tool: " ++ get_name client_tool) ;;;
        register_tools server_config tool_whitelist mcp_tools'
          (tools ++ [client_tool])%list
  end.

(** The outer loop, [for server_config in load_mcp_config()]. *)
Fixpoint register_servers (configs : list value) (tools : list MCPClientTool)
  : M (list MCPClientTool) :=
  match configs with
  | [] => ret tools
  | server_config :: configs' =>
      server_name <- lift (get server_config "name" (PStr "unknown")) ;;
      tool_whitelist <- lift (get server_config "tools" (PList [])) ;;
      logger INFO ("Processing MCP server: " ++ Py.str server_name) ;;;
      mcp_tools <- discover_mcp_tools server_config ;;
      mcp_tools <- lift (iter mcp_tools) ;;
      tools <- register_tools server_config tool_whitelist mcp_tools tools ;;
      register_servers configs' tools
  end.

Definition create_mcp_client_tools : M (list MCPClientTool) :=
  config <- load_mcp_config ;;
  configs <- lift (iter config) ;;
  tools <- register_servers configs [] ;;
  logger INFO ("Total MCP tools registered: "
                 ++ str_of_Z (Z.of_nat (List.length tools))) ;;;
  ret tools.

End McpTools.

(** ** The vocabulary of the specification *)

Fixpoint all_chars (p : ascii -> bool) (s : string) : bool :=
  match s with
  | EmptyString => true
  | String c s' => p c && all_chars p s'
  end.

(** An IDENTIFIER: one or more word characters. *)
Definition identifier (name : string) : bool :=
  negb (name =? "") && all_chars Re.is_word name.

(** The text [${name}]. *)
Definition placeholder (name : string) : string := "${" ++ name ++ "}".

(** [s] holds an occurrence of [${IDENTIFIER}]. *)
Definition has_placeholder (s : string) : Prop :=
  exists pre name post,
    identifier name = true /\ s = pre ++ placeholder name ++ post.

(** The same, decided by looking for a match at every position. *)
Fixpoint placeholder_at_some_position (s : string) : bool :=
  match s with
  | EmptyString => false
  | String _ s' =>
      match Re.match_head s with
      | Some _ => true
      | None => placeholder_at_some_position s'
      end
  end.

(** A text cut at its placeholders: each segment is the text before a
    placeholder and the name in it; [tail] is what follows the last one. *)
Fixpoint template (segments : list (string * string)) (tail : string) : string :=
  match segments with
  | [] => tail
  | (pre, name) :: rest => pre ++ placeholder name ++ template rest tail
  end.

(** The same text with every placeholder replaced by the value of its
    variable, or by nothing when the variable is unset. *)
Fixpoint rendered (environ : string -> option string)
         (segments : list (string * string)) (tail : string) : string :=
  match segments with
  | [] => tail
  | (pre, name) :: rest =>
      pre ++ match environ name with Some v => v | None => "" end
          ++ rendered environ rest tail
  end.

(** [segments] and [tail] cut [s] at all of its placeholders. *)
Definition cut_at_placeholders (s : string) (segments : list (string * string))
           (tail : string) : Prop :=
  s = template segments tail
  /\ Forall (fun seg => ~ has_placeholder (fst seg) /\ identifier (snd seg) = true)
            segments
  /\ ~ has_placeholder tail.

(** The text handed to [json.loads] by the loader. *)
Definition config_text (environ : string -> option string) : string :=
  substitute_env_vars environ (getenv environ "MCP_SERVERS_JSON" "[]").

Definition string_valued (d : list (string * value)) : bool :=
  forallb (fun kv => is_str (snd kv)) d.

(** [headers] is absent or maps names to texts. *)
Definition headers_ok (sd : list (string * value)) : bool :=
  match lookup "headers" sd with
  | None => true
  | Some (PDict h) => string_valued h
  | Some _ => false
  end.

(** A descriptor that can be sent to: it has a [url], and proper headers. *)
Definition callable_server (server : value) : bool :=
  match server with
  | PDict sd =>
      match lookup "url" sd with
      | Some _ => headers_ok sd
      | None => false
      end
  | _ => false
  end.

(** A descriptor with the two required fields of the data model. *)
Definition well_formed_server (server : value) : bool :=
  callable_server server &&
  match server with
  | PDict sd => match lookup "name" sd with Some _ => true | None => false end
  | _ => false
  end.

(** The headers a request to [server] carries. *)
Definition request_headers (environ : string -> option string) (server : value)
  : list (string * string) :=
  match get server "headers" (PDict []) with
  | inr (PDict h) =>
      map (fun kv => (fst kv, substitute_env_vars environ (Py.str (snd kv)))) h
  | _ => []
  end.

Definition field (server : value) (key : string) : value :=
  match server with
  | PDict sd => match lookup key sd with Some v => v | None => PNone end
  | _ => PNone
  end.

(** The [tools/list] request of Discovery. *)
Definition discovery_request (environ : string -> option string) (server : value)
  : request :=
  mkRequest (field server "url") tools_list_request (request_headers environ server) 30.

(** The [tools/call] request of Invocation. *)
Definition invocation_request (environ : string -> option string)
           (server tool_name arguments : value) : request :=
  mkRequest (field server "url") (tools_call_request tool_name arguments)
            (request_headers environ server) 60.

(** [response.result.tools], when the response holds it. *)
Definition result_tools (response : value) : option value :=
  match response with
  | PDict d =>
      match lookup "result" d with
      | Some (PDict r) => lookup "tools" r
      | _ => None
      end
  | _ => None
  end.

(** What Discovery makes of the outcome of its request. *)
Definition discovered (outcome : result value) : value :=
  match outcome with
  | inr response =>
      match result_tools response with
      | Some tools =>
          match len tools with
          | inr _ => tools
          | inl _ => PList []
          end
      | None => PList []
      end
  | inl _ => PList []
  end.

(** The texts of a content array as the specification words them: one per
    object, its [text] field, or the string form of the object without one. *)
Definition object_texts (content : list value) : list string :=
  flat_map (fun c =>
              match c with
              | PDict d =>
                  [match lookup "text" d with
                   | Some t => Py.str t
                   | None => Py.str c
                   end]
              | _ => []
              end) content.

(** Every [text] field of the array is a text. *)
Definition texts_are_strings (content : list value) : bool :=
  forallb (fun c =>
             match c with
             | PDict d =>
                 match lookup "text" d with
                 | Some t => is_str t
                 | None => true
                 end
             | _ => true
             end) content.

(** The sentence of the specification on a content array, taken by the
    letter: every element gives its [text] field or its own string form,
    and an empty joined text gives way to the string form of the array. *)
Definition claimed_content_text (content : list value) : string :=
  let joined :=
    String.concat newline
      (map (fun c =>
              match c with
              | PDict d =>
                  match lookup "text" d with
                  | Some t => Py.str t
                  | None => Py.str c
                  end
              | _ => Py.str c
              end) content) in
  if joined =? "" then Py.str (PList content) else joined.

(** The error branch as the specification words it. *)
Definition claimed_error_text (err : value) : string :=
  "Error: " ++
  match err with
  | PDict e =>
      match lookup "message" e with
      | Some m => Py.str m
      | None => "Unknown error"
      end
  | _ => "Unknown error"
  end.

(** What Invocation does with the answer it received (the rest of the
    [try] block). *)
Definition inspect_answer (result : value) : M string :=
  has_result <- lift (contains result (PStr "result")) ;;
  if has_result then
    r <- lift (getitem result "result") ;;
    content <- lift (get r "content" (PList [])) ;;
    match content with
    | PList l =>
        match content_texts l with
        | [] => ret (Py.str content)
        | _ => lift (join newline (content_texts l))
        end
    | _ => ret (Py.str content)
    end
  else
    has_error <- lift (contains result (PStr "error")) ;;
    if has_error then
      err <- lift (getitem result "error") ;;
      message <- lift (get err "message" (PStr "Unknown error")) ;;
      ret ("Error: " ++ Py.str message)
    else ret (Py.str result).

(** The [except] block of Invocation. *)
Definition report_failure (tool_name : value) (e : exn) : M string :=
  logger ERROR ("Failed to call MCP tool " ++ Py.str tool_name ++ ": "
                  ++ exn_str e) ;;;
  ret ("Error calling tool: " ++ exn_str e).

(** The world after one more request. *)
Definition requested (w : world) : world := mkWorld (S (sent w)) (log w).

(** The last message of the history. *)
Definition last_message (messages : list CompletionMessage)
  : option CompletionMessage :=
  nth_error messages (List.length messages - 1).

(** The first pending tool call of a message. *)
Definition first_tool_call (message : CompletionMessage) : option ToolCall :=
  match tool_calls message with
  | Some (tool_call :: _) => Some tool_call
  | _ => None
  end.

(** The argument map of a tool call: a text is decoded, and gives the empty
    map when it is no JSON; [None] when the reader fails in another way. *)
Definition decoded (json_loads : string -> result value) (arguments : value)
  : option value :=
  match arguments with
  | PStr s =>
      match json_loads s with
      | inr v => Some v
      | inl (JSONDecodeError _) => Some (PDict [])
      | inl _ => None
      end
  | _ => Some arguments
  end.

Definition diagnostic (self : MCPClientTool) (text : string) : ToolResponse :=
  mkToolResponse "unknown" (_name self) text [].

Definition field_or (v : value) (key : string) (default : value) : value :=
  match v with
  | PDict d =>
      match lookup key d with
      | Some x => x
      | None => default
      end
  | _ => default
  end.

Definition texts_of (l : list value) : list string :=
  flat_map (fun v => match v with PStr s => [s] | _ => [] end) l.

(** The whitelist of a descriptor; empty when the descriptor has none. *)
Definition whitelist (server : value) : list string :=
  match field_or server "tools" (PList []) with
  | PList l => texts_of l
  | _ => []
  end.

Definition whitelist_ok (server : value) : bool :=
  match field_or server "tools" (PList []) with
  | PList l => forallb is_str l
  | _ => false
  end.

(** A ServerConfig of the data model: name, url, headers that map to texts,
    and a whitelist that is a sequence of texts. *)
Definition declared_server (server : value) : bool :=
  well_formed_server server && whitelist_ok server.

(** A ToolDefinition of the data model: an object with a text [name]. *)
Definition named_tool (td : value) : bool :=
  match td with
  | PDict d =>
      match lookup "name" d with
      | Some (PStr _) => true
      | _ => false
      end
  | _ => false
  end.

(** An object without a [name] key. *)
Definition nameless_tool (td : value) : bool :=
  match td with
  | PDict d =>
      match lookup "name" d with
      | None => true
      | Some _ => false
      end
  | _ => false
  end.

(** The name of a tool definition, empty when it has none. *)
Definition tool_name_of (td : value) : string := Py.str (field_or td "name" (PStr "")).

Definition allowed_in (names : list string) (name : string) : bool :=
  match names with
  | [] => true
  | _ => existsb (String.eqb name) names
  end.

(** The whitelist lets the tool through. *)
Definition allowed (server td : value) : bool :=
  allowed_in (whitelist server) (tool_name_of td).

(** The wrapper of a (server, tool) pair. *)
Definition wrapper (server td : value) : MCPClientTool :=
  mkMCPClientTool server td
    (Py.str (field server "name") ++ "_" ++ tool_name_of td)
    (field_or td "description" (PStr ""))
    (field_or td "inputSchema" (PDict [])).

(** A tool definition the builder gets past: it has a name, or it has none
    and the whitelist keeps it out. *)
Definition registrable (server td : value) : bool :=
  named_tool td || (nameless_tool td && negb (allowed server td)).

Definition discovered_tools (outcome : result value) : list value :=
  match discovered outcome with
  | PList l => l
  | _ => []
  end.

Section Registry.

Variable environ : string -> option string.
Variable http_post : nat -> request -> result value.

(** The tools the [n]-th request, sent to [server], discovers. *)
Definition tools_at (n : nat) (server : value) : list value :=
  discovered_tools (http_post n (discovery_request environ server)).

Definition list_discovered (n : nat) (server : value) : bool :=
  is_list (discovered (http_post n (discovery_request environ server))).

(** Every request from the [n]-th on, one per server, discovers a list of
    tool definitions that satisfy [ok]. *)
Fixpoint discoveries (ok : value -> value -> bool) (n : nat)
         (servers : list value) : bool :=
  match servers with
  | [] => true
  | server :: rest =>
      list_discovered n server && forallb (ok server) (tools_at n server)
      && discoveries ok (S n) rest
  end.

(** The registry: server by server in the order of the configuration, and
    for each the allowed tools in the order of its discovery. *)
Fixpoint registry (n : nat) (servers : list value) : list MCPClientTool :=
  match servers with
  | [] => []
  | server :: rest =>
      (map (wrapper server) (filter (allowed server) (tools_at n server))
         ++ registry (S n) rest)%list
  end.

End Registry.

(** ** Inputs of the examples *)

Definition sample_environ (name : string) : option string :=
  if name =? "TOKEN" then Some "s3cret" else None.

Definition quoted (s : string) : string := String dquote (s ++ String dquote "").

Definition member (key text : string) : string := quoted key ++ ": " ++ text.

(** The descriptors of the examples and the JSON texts that denote them. *)
Definition files_server : value :=
  PDict [("name", PStr "fs"); ("url", PStr "http://localhost:8080/mcp");
         ("tools", PList [PStr "read"])].

Definition db_server : value :=
  PDict [("name", PStr "db"); ("url", PStr "http://localhost:9090/mcp")].

Definition blank_whitelist_server : value :=
  PDict [("name", PStr "fs"); ("url", PStr "http://localhost:8080/mcp");
         ("tools", PList [PStr ""])].

Definition files_text : string :=
  "{" ++ member "name" (quoted "fs") ++ ", "
      ++ member "url" (quoted "http://localhost:8080/mcp") ++ ", "
      ++ member "tools" ("[" ++ quoted "read" ++ "]") ++ "}".

Definition db_text : string :=
  "{" ++ member "name" (quoted "db") ++ ", "
      ++ member "url" (quoted "http://localhost:9090/mcp") ++ "}".

Definition blank_whitelist_text : string :=
  "{" ++ member "name" (quoted "fs") ++ ", "
      ++ member "url" (quoted "http://localhost:8080/mcp") ++ ", "
      ++ member "tools" ("[" ++ quoted "" ++ "]") ++ "}".

(** [json.loads] on the texts the examples use, as CPython answers them.
    Only these texts and [not json] are ever passed to it; a text outside
    the table is answered like [not json]. *)
Definition sample_json_loads (s : string) : result value :=
  if s =? "[]" then inr (PList [])
  else if s =? "{}" then inr (PDict [])
  else if s =? "5" then inr (PInt 5)
  else if s =? "{" ++ member "path" (quoted "/tmp") ++ "}"
       then inr (PDict [("path", PStr "/tmp")])
  else if s =? "[" ++ files_text ++ ", " ++ db_text ++ "]"
       then inr (PList [files_server; db_server])
  else if s =? "[" ++ db_text ++ "]" then inr (PList [db_server])
  else if s =? "[" ++ blank_whitelist_text ++ "]"
       then inr (PList [blank_whitelist_server])
  else inl (JSONDecodeError "Expecting value: line 1 column 1 (char 0)").

Definition empty_environ (name : string) : option string := None.

Definition config_environ (config : string) (name : string) : option string :=
  if name =? "MCP_SERVERS_JSON" then Some config else None.

Definition world0 : world := mkWorld 0 [].

Definition nameless_server : value :=
  PDict [("url", PStr "http://localhost:8080/mcp")].

Definition unreachable (n : nat) (req : request) : result value :=
  inl (OtherError "ConnectError" "All connection attempts failed").

Definition fs_server : value :=
  PDict [("name", PStr "fs"); ("url", PStr "http://localhost:8080/mcp");
         ("headers", PDict [("Authorization", PStr "Bearer ${TOKEN}")]);
         ("tools", PList [PStr "read"])].

(** An answer without [result.tools]. *)
Definition answers_error (n : nat) (req : request) : result value :=
  inr (PDict [("error", PDict [("message", PStr "bad")])]).

(** A server that gives the same answer to every request. *)
Definition answers (response : value) (n : nat) (req : request) : result value :=
  inr response.

Definition content_answer (content : list value) : value :=
  PDict [("result", PDict [("content", PList content)])].

Definition read_tool : value :=
  PDict [("name", PStr "read"); ("description", PStr "Read a file")].

Definition fs_read : MCPClientTool :=
  mkMCPClientTool fs_server read_tool "fs_read" (PStr "Read a file") (PDict []).

Definition read_call : ToolCall :=
  mkToolCall "call-1" "fs_read"
    (PStr ("{" ++ member "path" (quoted "/tmp") ++ "}")).

(** A server that answers a call with the tool name it was asked for. *)
Definition echo_tool_name (n : nat) (req : request) : result value :=
  inr (content_answer [PDict [("text", field (field (req_json req) "params") "name")]]).

Definition write_tool : value := PDict [("name", PStr "write")].

Definition anonymous_tool : value := PDict [("description", PStr "no name")].

Definition tools_answer (tools : list value) : value :=
  PDict [("result", PDict [("tools", PList tools)])].

(** The first request discovers a tool without a name, the later ones do not. *)
Definition anonymous_first (n : nat) (req : request) : result value :=
  match n with
  | 0 => inr (tools_answer [read_tool; anonymous_tool])
  | _ => inr (tools_answer [read_tool; write_tool])
  end.

Definition two_servers_environ : string -> option string :=
  config_environ ("[" ++ files_text ++ ", " ++ db_text ++ "]").

(** ** More vocabulary *)

(** The value of a variable, or the empty text. *)
Definition value_of (environ : string -> option string) (name : string) : string :=
  match environ name with
  | Some v => v
  | None => ""
  end.

(** A descriptor without a url, and one whose headers hold a number. *)
Definition urlless_server : value := PDict [("name", PStr "fs")].

Definition numeric_header_server : value :=
  PDict [("name", PStr "fs"); ("url", PStr "http://localhost:8080/mcp");
         ("headers", PDict [("X-Retries", PInt 3)])].

Definition nameless_text : string :=
  "{" ++ member "url" (quoted "http://localhost:8080/mcp") ++ "}".

(** [json.loads] on one more text; see [sample_json_loads] for the others. *)
Definition more_json_loads (s : string) : result value :=
  if s =? "[" ++ db_text ++ ", " ++ nameless_text ++ "]"
  then inr (PList [db_server; nameless_server])
  else sample_json_loads s.

(** The first request fails, the later ones discover two tools. *)
Definition fails_first (n : nat) (req : request) : result value :=
  match n with
  | 0 => inl (OtherError "ConnectError" "All connection attempts failed")
  | _ => inr (tools_answer [read_tool; write_tool])
  end.

(** An answer whose tools are keyed by name instead of listed. *)
Definition keyed_tools_answer : value :=
  PDict [("result", PDict [("tools", PDict [("read", PDict [])])])].

Definition read_message : CompletionMessage :=
  mkCompletionMessage (Some [read_call]).

(** A descriptor whose whitelist is one text instead of a list of texts,
    and one whose whitelist is a number. *)
Definition text_whitelist_server : value :=
  PDict [("name", PStr "db"); ("url", PStr "http://localhost:9090/mcp");
         ("tools", PStr "read_write")].

Definition number_whitelist_server : value :=
  PDict [("name", PStr "db"); ("url", PStr "http://localhost:9090/mcp");
         ("tools", PInt 1)].

Definition text_whitelist_text : string :=
  "{" ++ member "name" (quoted "db") ++ ", "
      ++ member "url" (quoted "http://localhost:9090/mcp") ++ ", "
      ++ member "tools" (quoted "read_write") ++ "}".

Definition number_whitelist_text : string :=
  "{" ++ member "name" (quoted "db") ++ ", "
      ++ member "url" (quoted "http://localhost:9090/mcp") ++ ", "
      ++ member "tools" "1" ++ "}".

(** [json.loads] on the two texts above; see [more_json_loads] for the others. *)
Definition whitelist_json_loads (s : string) : result value :=
  if s =? "[" ++ text_whitelist_text ++ "]"
  then inr (PList [text_whitelist_server])
  else if s =? "[" ++ number_whitelist_text ++ "]"
  then inr (PList [number_whitelist_server])
  else more_json_loads s.

(** A whitelist that is neither a text nor a container. *)
Definition scalar (v : value) : bool :=
  match v with
  | PNone | PBool _ | PInt _ => true
  | _ => false
  end.

(** * Properties *)

(** ** Printing *)

Example repr_nested :
  Py.str (PList [PDict [("text", PStr "")]; PStr "a\b"; PInt (-5); PNone; PBool true])
  = "[{'text': ''}, 'a\\b', -5, None, True]".
Proof. reflexivity. Qed.

Example repr_single_quote :
  repr_str "it's" = String dquote ("it's" ++ String dquote "").
Proof. reflexivity. Qed.

Example str_of_Z_samples :
  str_of_Z 0 = "0" /\ str_of_Z 42 = "42" /\ str_of_Z (-7) = "-7".
Proof. repeat split. Qed.

Example sub_sample :
  Re.sub (fun name => if name =? "A" then "x" else "") "a${A}b${B}${-}$${A" = "axb${-}$${A".
Proof. reflexivity. Qed.

(** ** Text *)

Lemma append_assoc (a b c : string) : (a ++ b) ++ c = a ++ (b ++ c).
Proof. induction a as [|x a IH]; simpl; [reflexivity|now rewrite IH]. Qed.

Lemma append_length (a b : string) :
  String.length (a ++ b) = String.length a + String.length b.
Proof. induction a as [|x a IH]; simpl; [reflexivity|now rewrite IH]. Qed.

(** ** Env Substitution *)

Section Substitution.

Import Re.

Lemma span_word_split (s : string) :
  s = fst (span_word s) ++ snd (span_word s)
  /\ all_chars is_word (fst (span_word s)) = true.
Proof.
  induction s as [|c s [IH1 IH2]]; simpl; [now split|].
  destruct (is_word c) eqn:Hc; simpl; [|now split].
  destruct (span_word s) as [w r]; simpl in *.
  split; [now rewrite <- IH1|now rewrite Hc].
Qed.

Lemma span_word_stops (n rest : string) (c : ascii) :
  all_chars is_word n = true -> is_word c = false ->
  span_word (n ++ String c rest) = (n, String c rest).
Proof.
  intros Hn Hc. induction n as [|x n IH]; simpl in *.
  - now rewrite Hc.
  - apply andb_prop in Hn as [Hx Hn]. now rewrite Hx, (IH Hn).
Qed.

Lemma match_head_placeholder (name rest : string) :
  identifier name = true ->
  match_head (placeholder name ++ rest) = Some (name, rest).
Proof.
  unfold identifier, placeholder. intros H.
  apply andb_prop in H as [Hne Hw].
  simpl. rewrite append_assoc. simpl.
  rewrite (span_word_stops name rest "}" Hw eq_refl).
  destruct name; [discriminate|reflexivity].
Qed.

Lemma match_head_sound (s name rest : string) :
  match_head s = Some (name, rest) ->
  identifier name = true /\ s = placeholder name ++ rest.
Proof.
  unfold match_head.
  destruct s as [|a [|b s]]; try discriminate.
  destruct (Ascii.eqb_spec a "$"); [subst a|discriminate].
  destruct (Ascii.eqb_spec b "{"); [subst b|discriminate].
  destruct (span_word_split s) as [Hs Hw].
  destruct (span_word s) as [[|c w] [|d r]]; try discriminate.
  destruct (Ascii.eqb_spec d "}"); [subst d|discriminate].
  simpl in Hs. cbn [fst] in Hw. intros [= <- <-]. split.
  - unfold identifier. now rewrite Hw.
  - unfold placeholder. simpl. rewrite append_assoc. simpl. now rewrite Hs.
Qed.

Lemma Re_match_head_shorter (s name rest : string) :
  match_head s = Some (name, rest) -> String.length rest < String.length s.
Proof.
  intros Hm. apply match_head_sound in Hm as [_ ->].
  unfold placeholder. rewrite !append_length. simpl. lia.
Qed.

Lemma sub_cons (repl : string -> string) (c : ascii) (s : string) :
  sub repl (String c s) =
  match match_head (String c s) with
  | Some (name, rest) => repl name ++ sub repl rest
  | None => String c (sub repl s)
  end.
Proof.
  simp sub.
  destruct (inspect (match_head (String c s))) as [[[name rest]|] H];
    simp sub; now rewrite H.
Qed.

Lemma has_placeholder_cons (c : ascii) (s : string) :
  has_placeholder s -> has_placeholder (String c s).
Proof.
  intros (pre & name & post & Hid & ->).
  now exists (String c pre), name, post.
Qed.

(** A word run that is followed by a brace cannot reach over a dollar sign. *)
Lemma word_run_before_dollar (n a x r : string) :
  all_chars is_word n = true ->
  a ++ String "$" x = n ++ String "}" r ->
  exists r', a = n ++ String "}" r'.
Proof.
  revert a. induction n as [|d n IH]; intros a Hn Heq; simpl in *.
  - destruct a as [|y a]; simpl in Heq; [discriminate|].
    injection Heq as -> _. now exists a.
  - apply andb_prop in Hn as [Hd Hn].
    destruct a as [|y a]; simpl in Heq.
    + injection Heq as <- _. discriminate.
    + injection Heq as -> Heq.
      destruct (IH a Hn Heq) as [r' ->]. now exists r'.
Qed.

Lemma no_match_across (c : ascii) (pre name post : string) :
  ~ has_placeholder (String c pre) ->
  match_head (String c pre ++ placeholder name ++ post) = None.
Proof.
  intros Hfree.
  destruct (match_head (String c pre ++ placeholder name ++ post))
    as [[n r]|] eqn:Hm; [exfalso|reflexivity].
  apply match_head_sound in Hm as [Hid Heq].
  apply Hfree. exists "", n.
  unfold placeholder in Heq. simpl in Heq. injection Heq as -> Heq.
  destruct pre as [|b pre]; simpl in Heq; [discriminate|].
  injection Heq as -> Heq.
  rewrite !append_assoc in Heq. simpl in Heq.
  unfold identifier in Hid. apply andb_prop in Hid as [Hne Hw].
  destruct (word_run_before_dollar n pre _ r Hw Heq) as [r' ->].
  exists r'. split.
  - unfold identifier. now rewrite Hne, Hw.
  - unfold placeholder. simpl. now rewrite append_assoc.
Qed.

Lemma sub_untouched (repl : string -> string) (s : string) :
  ~ has_placeholder s -> sub repl s = s.
Proof.
  induction s as [|c s IH]; intros Hfree; [now simp sub|].
  rewrite sub_cons.
  destruct (match_head (String c s)) as [[n r]|] eqn:Hm.
  - exfalso. apply Hfree. apply match_head_sound in Hm as [Hid ->].
    now exists "", n, r.
  - rewrite IH; [reflexivity|].
    intros H. apply Hfree. now apply has_placeholder_cons.
Qed.

Lemma sub_first_placeholder (repl : string -> string) (pre name post : string) :
  ~ has_placeholder pre -> identifier name = true ->
  sub repl (pre ++ placeholder name ++ post) = pre ++ repl name ++ sub repl post.
Proof.
  intros Hfree Hid. induction pre as [|c pre IH].
  - change ("" ++ placeholder name ++ post) with (placeholder name ++ post).
    pose proof (match_head_placeholder name post Hid) as Hm.
    destruct (placeholder name ++ post) as [|a t] eqn:Ht; [discriminate|].
    now rewrite sub_cons, Hm.
  - pose proof (no_match_across c pre name post Hfree) as Hm.
    change (String c pre ++ placeholder name ++ post)
      with (String c (pre ++ placeholder name ++ post)) in *.
    rewrite sub_cons, Hm, IH; [reflexivity|].
    intros H. apply Hfree. now apply has_placeholder_cons.
Qed.

Lemma placeholder_search_complete (s : string) :
  placeholder_at_some_position s = false -> ~ has_placeholder s.
Proof.
  induction s as [|c s IH]; intros Hscan (pre & name & post & Hid & Heq).
  - destruct pre; discriminate.
  - change (match match_head (String c s) with
            | Some _ => true
            | None => placeholder_at_some_position s
            end = false) in Hscan.
    destruct pre as [|a pre].
    + change ("" ++ placeholder name ++ post)
        with (placeholder name ++ post) in Heq.
      rewrite Heq, (match_head_placeholder name post Hid) in Hscan.
      discriminate.
    + simpl in Heq. injection Heq as _ Heq.
      destruct (match_head (String c s)); [discriminate|].
      apply (IH Hscan). now exists pre, name, post.
Qed.

End Substitution.

(** Every text can be cut at its placeholders. *)
Lemma cut_exists (s : string) :
  exists segments tail, cut_at_placeholders s segments tail.
Proof.
  remember (String.length s) as n eqn:Hn.
  assert (Hle : String.length s <= n) by lia. clear Hn.
  revert s Hle. induction n as [|n IHn]; intros s Hle.
  - destruct s; [|simpl in Hle; lia].
    exists [], "". repeat split; [constructor|].
    apply placeholder_search_complete. reflexivity.
  - induction s as [|c s IHs].
    + exists [], "". repeat split; [constructor|].
      apply placeholder_search_complete. reflexivity.
    + destruct (Re.match_head (String c s)) as [[name rest]|] eqn:Hm.
      * pose proof (Re_match_head_shorter _ _ _ Hm) as Hlt.
        apply match_head_sound in Hm as [Hid Hs].
        destruct (IHn rest) as (segments & tail & Hcut & Hok & Htail);
          [simpl in Hle, Hlt; lia|].
        exists (("", name) :: segments), tail. repeat split.
        -- rewrite Hs, Hcut. reflexivity.
        -- constructor; [|exact Hok]. split; [|exact Hid].
           apply placeholder_search_complete. reflexivity.
        -- exact Htail.
      * destruct IHs as (segments & tail & Hcut & Hok & Htail);
          [simpl in Hle; lia|].
        destruct segments as [|[pre name] segments].
        -- exists [], (String c tail). simpl in Hcut. subst s.
           repeat split; [constructor|].
           intros (pre & name & post & Hid & Heq).
           destruct pre as [|a pre].
           ++ change ("" ++ placeholder name ++ post)
                with (placeholder name ++ post) in Heq.
              rewrite Heq, (match_head_placeholder _ _ Hid) in Hm. discriminate.
           ++ simpl in Heq. injection Heq as _ Heq.
              apply Htail. now exists pre, name, post.
        -- inversion Hok as [|? ? [Hpre Hid] Hok']; subst. simpl in Hpre, Hid.
           exists ((String c pre, name) :: segments), tail. repeat split.
           ++ constructor; [|exact Hok']. cbn [fst snd]. split; [|exact Hid].
              intros (p & m & q & Hm_id & Heq).
              destruct p as [|a p].
              ** change ("" ++ placeholder m ++ q) with (placeholder m ++ q) in Heq.
                 assert (Hhead : Re.match_head
                                   (String c (template ((pre, name) :: segments) tail))
                                 = Some (m, q ++ placeholder name
                                              ++ template segments tail)).
                 { rewrite <- (match_head_placeholder m _ Hm_id). f_equal.
                   change (String c (template ((pre, name) :: segments) tail))
                     with (String c pre ++ placeholder name ++ template segments tail).
                   rewrite Heq. now rewrite !append_assoc. }
                 rewrite Hhead in Hm. discriminate.
              ** simpl in Heq. injection Heq as _ Heq.
                 apply Hpre. now exists p, m, q.
           ++ exact Htail.
Qed.

Lemma sub_rendered (environ : string -> option string)
      (segments : list (string * string)) (tail : string) :
  Forall (fun seg => ~ has_placeholder (fst seg) /\ identifier (snd seg) = true)
         segments ->
  ~ has_placeholder tail ->
  substitute_env_vars environ (template segments tail)
  = rendered environ segments tail.
Proof.
  intros Hok Htail. unfold substitute_env_vars.
  induction Hok as [|[pre name] segments [Hpre Hid] Hok IH];
    cbn [template rendered].
  - now apply sub_untouched.
  - cbn [fst snd] in Hpre, Hid.
    rewrite (sub_first_placeholder _ _ _ _ Hpre Hid), IH. reflexivity.
Qed.

(** C7. Env Substitution.  Every text can be cut at its occurrences of
    [${IDENTIFIER}], and however it is cut, the result is the text with each
    occurrence replaced by the value of its variable, or by the empty text
    when the variable is unset, and everything else as it was; so a text
    without an occurrence comes back unchanged. *)
Theorem substitute_env_vars_replaces
        (environ : string -> option string) (s : string) :
  (exists segments tail, cut_at_placeholders s segments tail)
  /\ (forall segments tail,
        cut_at_placeholders s segments tail ->
        substitute_env_vars environ s = rendered environ segments tail)
  /\ (~ has_placeholder s -> substitute_env_vars environ s = s).
Proof.
  split; [apply cut_exists|]. split.
  - intros segments tail (-> & Hok & Htail). now apply sub_rendered.
  - intros Hfree. unfold substitute_env_vars. now apply sub_untouched.
Qed.

Lemma substitute_env_vars_default (environ : string -> option string) :
  substitute_env_vars environ "[]" = "[]".
Proof.
  unfold substitute_env_vars.
  apply sub_untouched, placeholder_search_complete. reflexivity.
Qed.

Lemma substitute_env_vars_replaces_witness :
  substitute_env_vars sample_environ "Bearer ${TOKEN}/${HOME}/${" = "Bearer s3cret//${"
  /\ substitute_env_vars sample_environ "[]" = "[]".
Proof.
  destruct (substitute_env_vars_replaces sample_environ "Bearer ${TOKEN}/${HOME}/${")
    as (_ & Hcut & _).
  destruct (substitute_env_vars_replaces sample_environ "[]") as (_ & _ & Hsame).
  split.
  - apply (Hcut [("Bearer ", "TOKEN"); ("/", "HOME")] "/${").
    split; [reflexivity|]. split.
    + repeat constructor; apply placeholder_search_complete; reflexivity.
    + apply placeholder_search_complete. reflexivity.
  - apply Hsame, placeholder_search_complete. reflexivity.
Defined.

(** ** Config Loader *)

Lemma config_text_default (environ : string -> option string) :
  environ "MCP_SERVERS_JSON" = None -> config_text environ = "[]".
Proof.
  intros H. unfold config_text, getenv. rewrite H.
  apply substitute_env_vars_default.
Qed.

(** C6. Config Loader.  With the variable unset the loader reads the default
    text and returns the empty list; on text that [json.loads] rejects with a
    decode error it returns the empty list too, after one ERROR record, and
    raises nothing. *)
Theorem load_mcp_config_recovers
        (environ : string -> option string)
        (json_loads : string -> result value) (w : world) :
  (environ "MCP_SERVERS_JSON" = None /\ json_loads "[]" = inr (PList []))
  \/ (exists msg, json_loads (config_text environ) = inl (JSONDecodeError msg)) ->
  fst (load_mcp_config environ json_loads w) = inr (PList [])
  /\ forall msg,
       json_loads (config_text environ) = inl (JSONDecodeError msg) ->
       snd (load_mcp_config environ json_loads w)
       = logged w ERROR ("Failed to parse MCP_SERVERS_JSON: " ++ msg).
Proof.
  intros H. unfold load_mcp_config, try_except, bind, lift.
  fold (config_text environ).
  destruct H as [[Hunset Hloads]|[msg Hloads]].
  - rewrite (config_text_default environ Hunset), Hloads. simpl.
    split; [reflexivity|discriminate].
  - rewrite Hloads. simpl. split; [reflexivity|].
    now intros msg' [= <-].
Qed.

Lemma load_mcp_config_recovers_witness :
  fst (load_mcp_config empty_environ sample_json_loads world0) = inr (PList [])
  /\ load_mcp_config (config_environ "not json") sample_json_loads world0
     = (inr (PList []),
        mkWorld 0 [(ERROR, "Failed to parse MCP_SERVERS_JSON: Expecting value: line 1 column 1 (char 0)")]).
Proof.
  split.
  - apply (load_mcp_config_recovers empty_environ sample_json_loads world0).
    left. split; reflexivity.
  - assert (Hm : sample_json_loads (config_text (config_environ "not json"))
                 = inl (JSONDecodeError "Expecting value: line 1 column 1 (char 0)"))
      by reflexivity.
    destruct (load_mcp_config_recovers (config_environ "not json")
                sample_json_loads world0 (or_intror (ex_intro _ _ Hm))) as [H1 H2].
    specialize (H2 _ Hm).
    destruct (load_mcp_config (config_environ "not json") sample_json_loads world0)
      as [r w'].
    simpl in H1, H2. now subst.
Defined.

(** The loader on a text that is read to a value with a length. *)
Lemma load_mcp_config_loaded
      (environ : string -> option string)
      (json_loads : string -> result value) (w : world) (v : value) (n : nat) :
  json_loads (config_text environ) = inr v ->
  len v = inr n ->
  load_mcp_config environ json_loads w
  = (inr v,
     logged w INFO ("Loaded " ++ str_of_Z (Z.of_nat n)
                      ++ " MCP server configurations")).
Proof.
  intros Hloads Hlen. unfold load_mcp_config, try_except, bind, lift.
  fold (config_text environ). now rewrite Hloads, Hlen.
Qed.

(** C10. Config Loader.  Only the decode error is caught.  Whatever
    [json.loads] returns is handed back as it is when it has a length, be it a
    list, an object or a text; a value without a length makes the INFO line
    raise a TypeError, which leaves the function. *)
Theorem load_mcp_config_unvalidated
        (environ : string -> option string)
        (json_loads : string -> result value) (w : world) (v : value) :
  json_loads (config_text environ) = inr v ->
  match v with
  | PList _ | PDict _ | PStr _ =>
      exists n,
        len v = inr n /\
        load_mcp_config environ json_loads w
        = (inr v,
           logged w INFO ("Loaded " ++ str_of_Z (Z.of_nat n)
                            ++ " MCP server configurations"))
  | _ =>
      load_mcp_config environ json_loads w
      = (inl (TypeError ("object of type '" ++ type_name v ++ "' has no len()")), w)
  end.
Proof.
  intros Hloads.
  destruct v;
    try (eexists; split; [reflexivity|];
         now apply load_mcp_config_loaded);
    unfold load_mcp_config, try_except, bind, lift;
    fold (config_text environ); now rewrite Hloads.
Qed.

Lemma load_mcp_config_unvalidated_witness :
  fst (load_mcp_config (config_environ "{}") sample_json_loads world0) = inr (PDict [])
  /\ fst (load_mcp_config (config_environ "5") sample_json_loads world0)
     = inl (TypeError "object of type 'int' has no len()").
Proof.
  split.
  - destruct (load_mcp_config_unvalidated (config_environ "{}") sample_json_loads
                world0 (PDict []) eq_refl) as (n & _ & ->).
    reflexivity.
  - rewrite (load_mcp_config_unvalidated (config_environ "5") sample_json_loads
               world0 (PInt 5) eq_refl).
    reflexivity.
Defined.

(** ** Server descriptors and requests *)

Lemma substitute_items_string_valued
      (environ : string -> option string) (h : list (string * value)) :
  string_valued h = true ->
  substitute_items environ h
  = inr (map (fun kv => (fst kv, substitute_env_vars environ (Py.str (snd kv)))) h).
Proof.
  induction h as [|[k v] h IH]; simpl; intros H; [reflexivity|].
  apply andb_prop in H as [Hv Hh].
  destruct v; try discriminate. now rewrite (IH Hh).
Qed.

Lemma callable_server_prelude
      (environ : string -> option string) (server : value) :
  callable_server server = true ->
  getitem server "url" = inr (field server "url")
  /\ exists h, get server "headers" (PDict []) = inr h
               /\ substitute_headers environ h = inr (request_headers environ server).
Proof.
  unfold callable_server, headers_ok, request_headers, field.
  destruct server as [| | | | |sd]; try discriminate. simpl.
  destruct (lookup "url" sd) as [url|]; [|discriminate].
  intros H. split; [reflexivity|].
  destruct (lookup "headers" sd) as [h|].
  - destruct h as [| | | | |h]; try discriminate.
    exists (PDict h). split; [reflexivity|].
    now apply substitute_items_string_valued.
  - now exists (PDict []).
Qed.

Lemma well_formed_server_name (server : value) :
  well_formed_server server = true ->
  callable_server server = true
  /\ getitem server "name" = inr (field server "name").
Proof.
  unfold well_formed_server, field. intros H.
  apply andb_prop in H as [Hc Hn]. split; [exact Hc|].
  destruct server as [| | | | |sd]; try discriminate. simpl.
  now destruct (lookup "name" sd).
Qed.

(** Unfolding one monadic step. *)
Ltac mstep :=
  unfold bind, lift, ret, try_except, logger, post_json, Exception; simpl.

(** Case analysis on whatever the goal still matches on: variables first,
    then the innermost scrutinee. *)
Ltac split_match :=
  match goal with
  | |- context [match ?x with _ => _ end] => is_var x; destruct x; cbn in *
  | |- context [match ?x with _ => _ end] =>
      lazymatch x with
      | context [match _ with _ => _ end] => fail
      | _ => let E := fresh "E" in destruct x eqn:E; cbn in *
      end
  end.

Ltac py_cases :=
  repeat (unfold contains, getitem, get, len; cbn; try split_match).

(** ** Tool Discovery *)

Section Discovery.

Variable environ : string -> option string.
Variable http_post : nat -> request -> result value.

(** Discovery of a well-formed descriptor sends one request and returns. *)
Lemma discover_mcp_tools_returns (server : value) (w : world) :
  well_formed_server server = true ->
  exists w',
    discover_mcp_tools environ http_post server w
    = (inr (discovered (http_post (sent w) (discovery_request environ server))), w')
    /\ sent w' = S (sent w).
Proof.
  intros Hwf. apply well_formed_server_name in Hwf as [Hc Hname].
  destruct (callable_server_prelude environ server Hc) as (Hurl & h & Hget & Hsub).
  unfold discover_mcp_tools. mstep. rewrite Hurl, Hget, Hsub. simpl.
  fold (discovery_request environ server).
  destruct (http_post (sent w) (discovery_request environ server))
    as [e|response]; simpl.
  - rewrite Hname. simpl. eauto.
  - rewrite Hname. unfold result_tools.
    generalize (Py.str (field server "name")). intros name.
    py_cases; eexists; split; reflexivity.
Qed.

End Discovery.

(** C3, as stated, fails: a descriptor without a name, which the loader
    and the registry builder let through, makes the handler of a failed
    request raise. *)
Lemma discover_mcp_tools_nameless_raises :
  fst (discover_mcp_tools empty_environ unreachable nameless_server world0)
  = inl (KeyError "name")
  /\ fst (discover_mcp_tools empty_environ unreachable nameless_server world0)
     <> inr (PList []).
Proof. split; [reflexivity|discriminate]. Qed.

(** C3. Tool Discovery.  For a descriptor that has a name and a url, and
    headers that map to texts if it has any, Discovery returns and raises
    nothing; it returns the empty list when the request fails, and when the
    answer holds no [result.tools]. *)
Theorem discover_mcp_tools_contains_failures
        (environ : string -> option string)
        (http_post : nat -> request -> result value)
        (server : value) (w : world) :
  well_formed_server server = true ->
  exists tools,
    fst (discover_mcp_tools environ http_post server w) = inr tools
    /\ (forall e,
          http_post (sent w) (discovery_request environ server) = inl e ->
          tools = PList [])
    /\ (forall response,
          http_post (sent w) (discovery_request environ server) = inr response ->
          result_tools response = None ->
          tools = PList []).
Proof.
  intros Hwf.
  destruct (discover_mcp_tools_returns environ http_post server w Hwf)
    as (w' & Hrun & _).
  eexists. rewrite Hrun. split; [reflexivity|]. split.
  - now intros e ->.
  - intros response -> Hnone. simpl. now rewrite Hnone.
Qed.

Lemma discover_mcp_tools_contains_failures_witness :
  well_formed_server fs_server = true
  /\ fst (discover_mcp_tools sample_environ unreachable fs_server world0)
     = inr (PList [])
  /\ fst (discover_mcp_tools sample_environ answers_error fs_server world0)
     = inr (PList []).
Proof.
  split; [reflexivity|]. split.
  - destruct (discover_mcp_tools_contains_failures sample_environ unreachable
                fs_server world0 eq_refl) as (tools & Hrun & Hfail & _).
    rewrite Hrun. f_equal. now apply (Hfail _ eq_refl).
  - destruct (discover_mcp_tools_contains_failures sample_environ answers_error
                fs_server world0 eq_refl) as (tools & Hrun & _ & Hlacks).
    rewrite Hrun. f_equal. now apply (Hlacks _ eq_refl).
Defined.

(** ** Tool Invocation *)

Section Invocation.

Variable environ : string -> option string.

Lemma join_texts_are_strings (content : list value) :
  texts_are_strings content = true ->
  forall i,
    join_from i (content_texts content) = inr (object_texts content).
Proof.
  induction content as [|c content IH]; intros H i; [reflexivity|].
  simpl in H. apply andb_prop in H as [Hc H].
  destruct c as [| | | | |d]; simpl; try apply (IH H).
  destruct (lookup "text" d) as [t|].
  - destruct t; try discriminate. simpl. now rewrite (IH H).
  - simpl. now rewrite (IH H).
Qed.

Lemma object_texts_none (content : list value) :
  object_texts content = [] <-> content_texts content = [].
Proof.
  induction content as [|c content IH]; simpl; [tauto|].
  destruct c; simpl; try exact IH. split; discriminate.
Qed.

(** Invocation on a callable descriptor: the request, then the inspection of
    the answer under the handler. *)
Lemma call_mcp_tool_sends (http_post : nat -> request -> result value)
      (server tool_name arguments : value) (w : world) :
  callable_server server = true ->
  call_mcp_tool environ http_post server tool_name arguments w
  = match http_post (sent w)
            (invocation_request environ server tool_name arguments) with
    | inl e => report_failure tool_name e (requested w)
    | inr response =>
        try_except (inspect_answer response) Exception
                   (report_failure tool_name) (requested w)
    end.
Proof.
  intros Hc.
  destruct (callable_server_prelude environ server Hc) as (Hurl & h & Hget & Hsub).
  unfold call_mcp_tool, invocation_request.
  unfold bind at 1 2 3, lift at 1 2 3. rewrite Hurl, Hget, Hsub.
  unfold try_except, bind at 1, post_json. cbn [sent log].
  now destruct (http_post (sent w) _).
Qed.

(** Under the handler of Invocation every body ends in a text. *)
Lemma report_failure_catches (body : M string) (tool_name : value) (w : world) :
  exists text,
    fst (try_except body Exception (report_failure tool_name) w) = inr text.
Proof.
  unfold try_except. destruct (body w) as [[e|text] w']; cbn; eauto.
Qed.

(** C2. Tool Invocation.  On a callable descriptor the call returns a text
    and raises nothing.  A failed request gives the text of its exception;
    in an object answer [result] goes first, whatever else the object holds,
    then an [error] that is an object gives its message or the fallback, and
    an object with neither key gives its own string form. *)
Theorem call_mcp_tool_normalizes
        (http_post : nat -> request -> result value)
        (server tool_name arguments : value) (w : world) :
  callable_server server = true ->
  let outcome :=
    http_post (sent w) (invocation_request environ server tool_name arguments) in
  let returned :=
    fst (call_mcp_tool environ http_post server tool_name arguments w) in
  (exists text, returned = inr text)
  /\ (forall e,
        outcome = inl e -> returned = inr ("Error calling tool: " ++ exn_str e))
  /\ (forall d r,
        outcome = inr (PDict d) -> lookup "result" d = Some r ->
        returned
        = fst (call_mcp_tool environ (answers (PDict [("result", r)]))
                 server tool_name arguments w))
  /\ (forall d err,
        outcome = inr (PDict d) -> lookup "result" d = None ->
        lookup "error" d = Some (PDict err) ->
        returned
        = inr ("Error: " ++ match lookup "message" err with
                            | Some m => Py.str m
                            | None => "Unknown error"
                            end))
  /\ (forall d,
        outcome = inr (PDict d) -> lookup "result" d = None ->
        lookup "error" d = None ->
        returned = inr (Py.str (PDict d))).
Proof.
  intros Hc outcome returned. subst outcome returned.
  rewrite (call_mcp_tool_sends http_post _ _ _ _ Hc).
  destruct (http_post (sent w) _) as [e|response].
  - split; [|split; [|split; [|split]]]; try discriminate.
    + eexists. reflexivity.
    + now intros e' [= <-].
  - split; [apply report_failure_catches|].
    unfold try_except, inspect_answer, report_failure.
    unfold bind, lift, ret, logger, Exception.
    split; [|split; [|split]].
    + discriminate.
    + intros d r [= ->] Hr. rewrite (call_mcp_tool_sends _ _ _ _ _ Hc).
      unfold answers, try_except, inspect_answer, report_failure.
      unfold bind, lift, ret, logger, Exception, contains, getitem.
      cbn. now rewrite Hr.
    + intros d err [= ->] Hr He. unfold contains, getitem, get.
      cbn. rewrite Hr, He. cbn. now destruct (lookup "message" err).
    + intros d [= ->] Hr He. unfold contains. cbn. now rewrite Hr, He.
Qed.

(** C1. Tool Invocation.  When the answer holds a [result] whose [content]
    is an array and every [text] field in it is a text, the call returns the
    texts of the objects of the array joined by newlines, an object without
    a [text] field giving its string form and an element that is no object
    giving nothing; when the array holds no object at all, it returns the
    string form of the array. *)
Theorem call_mcp_tool_joins_texts
        (http_post : nat -> request -> result value)
        (server tool_name arguments : value) (w : world)
        (d r : list (string * value)) (content : list value) :
  callable_server server = true ->
  http_post (sent w) (invocation_request environ server tool_name arguments)
  = inr (PDict d) ->
  lookup "result" d = Some (PDict r) ->
  lookup "content" r = Some (PList content) ->
  texts_are_strings content = true ->
  fst (call_mcp_tool environ http_post server tool_name arguments w)
  = inr match object_texts content with
        | [] => Py.str (PList content)
        | texts => String.concat newline texts
        end.
Proof.
  intros Hc Hpost Hr Hcontent Hstr.
  rewrite (call_mcp_tool_sends http_post _ _ _ _ Hc), Hpost.
  unfold try_except, inspect_answer, bind, lift, ret, contains, getitem, get.
  cbn. rewrite Hr. cbn. rewrite Hcontent.
  destruct (content_texts content) as [|t ts] eqn:Ht.
  - apply object_texts_none in Ht. now rewrite Ht.
  - unfold join. rewrite <- Ht, (join_texts_are_strings content Hstr 0).
    cbn. destruct (object_texts content) eqn:Ho; [|reflexivity].
    apply object_texts_none in Ho. congruence.
Qed.

End Invocation.

Lemma call_mcp_tool_joins_texts_witness :
  callable_server fs_server = true
  /\ fst (call_mcp_tool sample_environ
            (answers (content_answer [PDict [("text", PStr "a")];
                                      PDict [("text", PStr "b")]]))
            fs_server (PStr "read") (PDict []) world0)
     = inr ("a" ++ newline ++ "b").
Proof.
  split; [reflexivity|].
  exact (call_mcp_tool_joins_texts sample_environ
           (answers (content_answer [PDict [("text", PStr "a")];
                                     PDict [("text", PStr "b")]]))
           fs_server (PStr "read") (PDict []) world0
           [("result", PDict [("content", PList [PDict [("text", PStr "a")];
                                                 PDict [("text", PStr "b")]])])]
           [("content", PList [PDict [("text", PStr "a")];
                               PDict [("text", PStr "b")]])]
           [PDict [("text", PStr "a")]; PDict [("text", PStr "b")]]
           eq_refl eq_refl eq_refl eq_refl eq_refl).
Defined.

Example call_mcp_tool_hi :
  fst (call_mcp_tool sample_environ
         (answers (content_answer [PDict [("text", PStr "hi")]]))
         fs_server (PStr "read") (PDict []) world0)
  = inr "hi".
Proof. reflexivity. Qed.

(** C1, as stated, fails twice: an element that is no object is left out
    instead of giving its string form, and an empty joined text is returned
    as it is when the array holds an object. *)
Lemma call_mcp_tool_content_by_the_letter :
  let call content :=
    fst (call_mcp_tool sample_environ (answers (content_answer content))
           fs_server (PStr "read") (PDict []) world0) in
  (call [PStr "x"] = inr "['x']"
   /\ claimed_content_text [PStr "x"] = "x"
   /\ call [PStr "x"] <> inr (claimed_content_text [PStr "x"]))
  /\ (call [PDict [("text", PStr "")]] = inr ""
      /\ claimed_content_text [PDict [("text", PStr "")]] = "[{'text': ''}]"
      /\ call [PDict [("text", PStr "")]]
         <> inr (claimed_content_text [PDict [("text", PStr "")]])).
Proof. cbv zeta. repeat split; discriminate. Qed.

Lemma call_mcp_tool_normalizes_witness :
  callable_server fs_server = true
  /\ fst (call_mcp_tool sample_environ answers_error fs_server (PStr "read")
            (PDict []) world0)
     = inr "Error: bad"
  /\ fst (call_mcp_tool sample_environ unreachable fs_server (PStr "read")
            (PDict []) world0)
     = inr "Error calling tool: All connection attempts failed".
Proof.
  split; [reflexivity|].
  destruct (call_mcp_tool_normalizes sample_environ answers_error fs_server
              (PStr "read") (PDict []) world0 eq_refl) as (_ & _ & _ & Herr & _).
  destruct (call_mcp_tool_normalizes sample_environ unreachable fs_server
              (PStr "read") (PDict []) world0 eq_refl) as (_ & Hfail & _).
  split.
  - exact (Herr _ _ eq_refl eq_refl eq_refl).
  - exact (Hfail _ eq_refl).
Defined.

(** C2, as stated, fails on answers that are no object, or whose [error] is
    none: the type error that the inspection meets is the result. *)
Lemma call_mcp_tool_malformed_answers :
  let call response :=
    fst (call_mcp_tool sample_environ (answers response)
           fs_server (PStr "read") (PDict []) world0) in
  (call (PDict [("error", PStr "bad")])
   = inr "Error calling tool: 'str' object has no attribute 'get'"
   /\ call (PDict [("error", PStr "bad")]) <> inr (claimed_error_text (PStr "bad")))
  /\ (call (PInt 5)
      = inr "Error calling tool: argument of type 'int' is not iterable"
      /\ call (PInt 5) <> inr (Py.str (PInt 5))).
Proof. cbv zeta. repeat split; discriminate. Qed.

(** ** Tool Wrapper *)

Lemma getitem_field (v x : value) (key : string) :
  getitem v key = inr x -> x = field v key.
Proof.
  unfold getitem, field. destruct v as [| | | | |d]; try discriminate.
  destruct (lookup key d); [now intros [= ->]|discriminate].
Qed.

Lemma MCPClientTool_init_fields (server td : value) (self : MCPClientTool) :
  MCPClientTool_init server td = inr self ->
  server_config self = server /\ tool_definition self = td
  /\ getitem server "name" = inr (field server "name")
  /\ getitem td "name" = inr (field td "name")
  /\ _name self = Py.str (field server "name") ++ "_" ++ Py.str (field td "name").
Proof.
  unfold MCPClientTool_init.
  destruct (getitem server "name") as [e|sname] eqn:Hs; [discriminate|].
  destruct (getitem td "name") as [e|tname] eqn:Ht; [discriminate|].
  destruct (get td "description" (PStr "")); [discriminate|].
  destruct (get td "inputSchema" (PDict [])); [discriminate|].
  intros [= <-]. cbn.
  apply getitem_field in Hs, Ht. now subst.
Qed.

Lemma rev_head_last {A} (l : list A) :
  match rev l with
  | [] => None
  | x :: _ => Some x
  end = nth_error l (List.length l - 1).
Proof.
  destruct l as [|a l] using rev_ind; [reflexivity|].
  rewrite rev_app_distr, length_app. cbn.
  rewrite nth_error_app2 by lia.
  replace (List.length l + 1 - 1 - List.length l) with 0 by lia. reflexivity.
Qed.

Section Wrapper.

Variable environ : string -> option string.
Variable json_loads : string -> result value.
Variable http_post : nat -> request -> result value.

Lemma parse_arguments_decoded (arguments v : value) (w : world) :
  decoded json_loads arguments = Some v ->
  parse_arguments json_loads arguments w = (inr v, w).
Proof.
  unfold decoded, parse_arguments, try_except, lift, ret.
  destruct arguments; try (now intros [= ->]).
  destruct (json_loads s) as [[]|]; cbn; try discriminate; now intros [= ->].
Qed.

(** C5. Tool Wrapper.  A wrapper that was built by its constructor answers
    an empty history, and a last message without a tool call, with a
    diagnostic response and raises nothing.  Otherwise it decodes the
    arguments of the first tool call of the last message, calls Invocation
    on its server with the name the tool definition holds, and returns the
    text it got as the content, with the server name in the metadata. *)
Theorem run_contract (server td : value) (self : MCPClientTool)
        (messages : list CompletionMessage) (w : world) :
  MCPClientTool_init server td = inr self ->
  match last_message messages with
  | None =>
      run environ json_loads http_post self messages w
      = (inr (diagnostic self "No messages provided"), w)
  | Some message =>
      match first_tool_call message with
      | None =>
          run environ json_loads http_post self messages w
          = (inr (diagnostic self "No tool calls in message"), w)
      | Some tool_call =>
          forall arguments,
            decoded json_loads (tc_arguments tool_call) = Some arguments ->
            run environ json_loads http_post self messages w
            = match call_mcp_tool environ http_post server (field td "name")
                      arguments w with
              | (inr text, w') =>
                  (inr (mkToolResponse (tc_call_id tool_call) (_name self) text
                          [("mcp_server", field server "name")]), w')
              | (inl e, w') => (inl e, w')
              end
      end
  end.
Proof.
  intros Hinit.
  destruct (MCPClientTool_init_fields server td self Hinit)
    as (Hs & Ht & Hsname & Htname & _).
  unfold last_message. rewrite <- rev_head_last.
  unfold run, first_tool_call, diagnostic.
  destruct (rev messages) as [|message rest]; [reflexivity|].
  destruct (tool_calls message) as [[|tool_call calls]|]; try reflexivity.
  intros arguments Hdec.
  unfold bind at 1. rewrite (parse_arguments_decoded _ _ _ Hdec).
  rewrite Hs, Ht. unfold bind at 1, lift at 1. rewrite Htname.
  unfold bind at 1.
  destruct (call_mcp_tool environ http_post server (field td "name") arguments w)
    as [[e|text] w']; [reflexivity|].
  unfold bind, lift, ret. now rewrite Hsname.
Qed.

(** C8. Tool Wrapper.  Awaiting [async_run] is [run]: the same response, the
    same requests and the same log records; its body holds no await. *)
Theorem async_run_is_run (self : MCPClientTool)
        (messages : list CompletionMessage) :
  await (async_run environ json_loads http_post self messages)
  = run environ json_loads http_post self messages
  /\ async_run environ json_loads http_post self messages
     = Return (run environ json_loads http_post self messages).
Proof. split; reflexivity. Qed.

End Wrapper.

Lemma run_contract_witness :
  MCPClientTool_init fs_server read_tool = inr fs_read
  /\ run sample_environ sample_json_loads echo_tool_name fs_read [] world0
     = (inr (mkToolResponse "unknown" "fs_read" "No messages provided" []), world0)
  /\ fst (run sample_environ sample_json_loads echo_tool_name fs_read
            [mkCompletionMessage None; mkCompletionMessage (Some [read_call])]
            world0)
     = inr (mkToolResponse "call-1" "fs_read" "read" [("mcp_server", PStr "fs")]).
Proof.
  split; [reflexivity|]. split.
  - exact (run_contract sample_environ sample_json_loads echo_tool_name
             fs_server read_tool fs_read [] world0 eq_refl).
  - rewrite (run_contract sample_environ sample_json_loads echo_tool_name
               fs_server read_tool fs_read
               [mkCompletionMessage None; mkCompletionMessage (Some [read_call])]
               world0 eq_refl (PDict [("path", PStr "/tmp")]) eq_refl).
    reflexivity.
Defined.

(** ** Registry Builder *)

Section RegistryProofs.

Variable environ : string -> option string.
Variable http_post : nat -> request -> result value.

Lemma declared_server_fields (server : value) :
  declared_server server = true ->
  well_formed_server server = true
  /\ get server "name" (PStr "unknown") = inr (field server "name")
  /\ exists l,
       get server "tools" (PList []) = inr (PList l)
       /\ forallb is_str l = true
       /\ whitelist server = texts_of l.
Proof.
  unfold declared_server, whitelist_ok, whitelist. intros H.
  apply andb_prop in H as [Hwf Hwl]. split; [exact Hwf|].
  pose proof Hwf as Hwf'. unfold well_formed_server in Hwf'.
  apply andb_prop in Hwf' as [_ Hname].
  destruct server as [| | | | |sd]; try discriminate. cbn in *.
  destruct (lookup "name" sd); [|discriminate]. split; [reflexivity|].
  destruct (lookup "tools" sd) as [[| | | |l|]|]; try discriminate.
  - now exists l.
  - now exists [].
Qed.

Lemma texts_of_none (l : list value) :
  forallb is_str l = true -> texts_of l = [] -> l = [].
Proof.
  destruct l as [|x l]; [reflexivity|].
  destruct x; cbn; discriminate.
Qed.

Lemma contains_texts (l : list value) (name : string) :
  forallb is_str l = true ->
  existsb (fun x => equal x (PStr name)) l = existsb (String.eqb name) (texts_of l).
Proof.
  induction l as [|x l IH]; [reflexivity|]. cbn [forallb].
  intros H. apply andb_prop in H as [Hx Hl].
  destruct x; try discriminate. cbn. now rewrite (IH Hl), String.eqb_sym.
Qed.

(** The whitelist test of the loop, on a whitelist of texts. *)
Lemma whitelist_test (l : list value) (name : string) (w : world) :
  forallb is_str l = true ->
  (if truthy (PList l)
   then inside <- lift (contains (PList l) (PStr name)) ;; ret (negb inside)
   else ret false) w
  = (inr (negb (allowed_in (texts_of l) name)), w).
Proof.
  intros Hl. destruct l as [|x l]; [reflexivity|].
  unfold bind, lift, ret, contains, allowed_in. cbn [truthy].
  rewrite (contains_texts _ _ Hl).
  destruct x; try discriminate. reflexivity.
Qed.

Lemma registrable_name (server td : value) :
  registrable server td = true ->
  get td "name" (PStr "") = inr (PStr (tool_name_of td)).
Proof.
  unfold registrable, named_tool, nameless_tool, tool_name_of, field_or, get.
  destruct td as [| | | | |d]; try discriminate.
  destruct (lookup "name" d) as [[]|]; try discriminate; reflexivity.
Qed.

Lemma wrapper_built (server td : value) :
  getitem server "name" = inr (field server "name") ->
  named_tool td = true ->
  MCPClientTool_init server td = inr (wrapper server td).
Proof.
  unfold MCPClientTool_init, wrapper, named_tool, tool_name_of, field_or.
  intros ->. destruct td as [| | | | |d]; try discriminate. cbn.
  destruct (lookup "name" d) as [[]|]; try discriminate.
  now destruct (lookup "description" d), (lookup "inputSchema" d).
Qed.

Lemma register_tools_cons (server wl td : value) (rest : list value)
      (acc : list MCPClientTool) :
  register_tools server wl (td :: rest) acc
  = (tool_name <- lift (get td "name" (PStr "")) ;;
     skip <-
       (if truthy wl
        then inside <- lift (contains wl tool_name) ;; ret (negb inside)
        else ret false) ;;
     if skip then
       logger DEBUG ("Skipping tool " ++ Py.str tool_name ++ " (not in whitelist)") ;;;
       register_tools server wl rest acc
     else
       client_tool <- lift (MCPClientTool_init server td) ;;
       logger INFO ("Registered tool: " ++ get_name client_tool) ;;;
       register_tools server wl rest (acc ++ [client_tool])%list).
Proof. reflexivity. Qed.

(** The inner loop on tool definitions it gets past: the allowed ones are
    wrapped, in order, and no request is sent. *)
Lemma register_tools_registers (server : value) (l tds : list value) :
  getitem server "name" = inr (field server "name") ->
  forallb is_str l = true ->
  whitelist server = texts_of l ->
  forallb (registrable server) tds = true ->
  forall acc w,
  exists w',
    register_tools server (PList l) tds acc w
    = (inr (acc ++ map (wrapper server) (filter (allowed server) tds))%list, w')
    /\ sent w' = sent w.
Proof.
  intros Hname Hl Hwl. induction tds as [|td tds IH]; intros Hok acc w.
  - exists w. cbn. now rewrite app_nil_r.
  - cbn [forallb] in Hok. apply andb_prop in Hok as [Htd Hok].
    rewrite register_tools_cons. unfold bind at 1, lift at 1.
    rewrite (registrable_name _ _ Htd). unfold bind at 1.
    rewrite (whitelist_test _ _ _ Hl), <- Hwl.
    fold (allowed server td). cbn [filter].
    destruct (allowed server td) eqn:Hallowed; cbn [negb].
    + unfold registrable in Htd. rewrite Hallowed, andb_false_r, orb_false_r in Htd.
      unfold bind at 1, lift at 1. rewrite (wrapper_built _ _ Hname Htd).
      unfold bind at 1, logger at 1.
      destruct (IH Hok (acc ++ [wrapper server td])%list
                  (logged w INFO ("Registered tool: " ++ get_name (wrapper server td))))
        as (w' & Hrun & Hsent).
      exists w'. rewrite Hrun. cbn [map]. now rewrite <- app_assoc.
    + unfold bind at 1, logger at 1.
      destruct (IH Hok acc
                  (logged w DEBUG ("Skipping tool " ++ Py.str (PStr (tool_name_of td))
                                     ++ " (not in whitelist)")))
        as (w' & Hrun & Hsent).
      exists w'. now rewrite Hrun.
Qed.

(** The loop stops at the first nameless tool that the whitelist lets in. *)
Lemma register_tools_nameless (server : value) (l pre post : list value)
      (td : value) :
  getitem server "name" = inr (field server "name") ->
  forallb is_str l = true ->
  whitelist server = texts_of l ->
  forallb (registrable server) pre = true ->
  nameless_tool td = true ->
  allowed server td = true ->
  forall acc w,
    fst (register_tools server (PList l) (pre ++ td :: post) acc w)
    = inl (KeyError "name").
Proof.
  intros Hname Hl Hwl Hpre Htd Hallowed.
  induction pre as [|p pre IH]; intros acc w.
  - cbn [app]. rewrite register_tools_cons. unfold bind at 1, lift at 1.
    assert (Hreg : get td "name" (PStr "") = inr (PStr (tool_name_of td))).
    { unfold nameless_tool in Htd. unfold tool_name_of, field_or, get.
      destruct td as [| | | | |d]; try discriminate.
      now destruct (lookup "name" d). }
    rewrite Hreg. unfold bind at 1.
    rewrite (whitelist_test _ _ _ Hl), <- Hwl.
    fold (allowed server td). rewrite Hallowed. cbn [negb].
    unfold bind at 1, lift at 1. unfold MCPClientTool_init. rewrite Hname.
    unfold nameless_tool in Htd. destruct td as [| | | | |d]; try discriminate.
    cbn. now destruct (lookup "name" d).
  - cbn [forallb] in Hpre. apply andb_prop in Hpre as [Hp Hpre].
    cbn [app]. rewrite register_tools_cons. unfold bind at 1, lift at 1.
    rewrite (registrable_name _ _ Hp). unfold bind at 1.
    rewrite (whitelist_test _ _ _ Hl), <- Hwl.
    fold (allowed server p).
    destruct (allowed server p) eqn:Hap; cbn [negb].
    + unfold registrable in Hp. rewrite Hap, andb_false_r, orb_false_r in Hp.
      unfold bind at 1, lift at 1. rewrite (wrapper_built _ _ Hname Hp).
      unfold bind at 1, logger at 1. apply (IH Hpre).
    + unfold bind at 1, logger at 1. apply (IH Hpre).
Qed.

Lemma register_servers_cons (server : value) (rest : list value) (acc : list MCPClientTool) :
  register_servers environ http_post (server :: rest) acc
  = (server_name <- lift (get server "name" (PStr "unknown")) ;;
     tool_whitelist <- lift (get server "tools" (PList [])) ;;
     logger INFO ("Processing MCP server: " ++ Py.str server_name) ;;;
     mcp_tools <- discover_mcp_tools environ http_post server ;;
     mcp_tools <- lift (iter mcp_tools) ;;
     tools <- register_tools server tool_whitelist mcp_tools acc ;;
     register_servers environ http_post rest tools).
Proof. reflexivity. Qed.

(** One round of the outer loop on a descriptor of the data model whose
    discovery gives a list: one request, then the inner loop. *)
Lemma register_servers_round (server : value) (rest : list value)
      (acc : list MCPClientTool) (w : world) :
  declared_server server = true ->
  list_discovered environ http_post (sent w) server = true ->
  exists l w1,
    forallb is_str l = true
    /\ whitelist server = texts_of l
    /\ sent w1 = S (sent w)
    /\ register_servers environ http_post (server :: rest) acc w
       = bind (register_tools server (PList l)
                 (tools_at environ http_post (sent w) server) acc)
              (register_servers environ http_post rest) w1.
Proof.
  intros Hdecl Hlist.
  destruct (declared_server_fields server Hdecl)
    as (Hwf & Hname & l & Htools & Hl & Hwl).
  pose (w0 := logged w INFO ("Processing MCP server: " ++ Py.str (field server "name"))).
  destruct (discover_mcp_tools_returns environ http_post server w0 Hwf)
    as (w1 & Hdisc & Hsent).
  exists l, w1. repeat split; try assumption.
  rewrite register_servers_cons.
  unfold bind at 1, lift at 1. rewrite Hname.
  unfold bind at 1, lift at 1. rewrite Htools.
  unfold bind at 1, logger at 1. fold w0.
  unfold bind at 1. rewrite Hdisc. change (sent w0) with (sent w).
  unfold list_discovered in Hlist. unfold tools_at, discovered_tools.
  destruct (discovered (http_post (sent w) (discovery_request environ server)));
    try discriminate.
  reflexivity.
Qed.

(** The outer loop on descriptors of the data model whose tools it gets
    past: it builds the registry with one request per server. *)
Lemma register_servers_registers (servers : list value) :
  forallb declared_server servers = true ->
  forall acc w,
    discoveries environ http_post registrable (sent w) servers = true ->
    exists w',
      register_servers environ http_post servers acc w
      = (inr (acc ++ registry environ http_post (sent w) servers)%list, w')
      /\ sent w' = sent w + List.length servers.
Proof.
  induction servers as [|server rest IH]; intros Hdecl acc w Hdisc.
  - exists w. cbn. rewrite app_nil_r. split; [reflexivity|lia].
  - cbn [forallb] in Hdecl. apply andb_prop in Hdecl as [Hserver Hrest].
    cbn [discoveries] in Hdisc.
    apply andb_prop in Hdisc as [Hdisc Hafter].
    apply andb_prop in Hdisc as [Hlist Htools].
    destruct (register_servers_round server rest acc w Hserver Hlist)
      as (l & w1 & Hl & Hwl & Hsent & ->).
    destruct (declared_server_fields server Hserver) as (Hwf & _).
    apply well_formed_server_name in Hwf as [_ Hname].
    destruct (register_tools_registers server l _ Hname Hl Hwl Htools acc w1)
      as (w2 & Hrun & Hsent2).
    unfold bind. rewrite Hrun.
    rewrite <- Hsent, <- Hsent2 in Hafter.
    edestruct (IH Hrest) as (w' & Hrest' & Hsent'); [exact Hafter|].
    exists w'. rewrite Hrest'. cbn [registry List.length].
    rewrite <- app_assoc, Hsent2, Hsent. split; [reflexivity|lia].
Qed.

(** The outer loop stops where the inner loop does. *)
Lemma register_servers_nameless (before after pre post : list value)
      (server td : value) :
  forallb declared_server (before ++ [server]) = true ->
  forallb (registrable server) pre = true ->
  nameless_tool td = true ->
  allowed server td = true ->
  forall acc w,
    discoveries environ http_post registrable (sent w) before = true ->
    discovered (http_post (sent w + List.length before)
                  (discovery_request environ server))
    = PList (pre ++ td :: post) ->
    fst (register_servers environ http_post (before ++ server :: after) acc w)
    = inl (KeyError "name").
Proof.
  intros Hdecl Hpre Htd Hallowed.
  induction before as [|b before IH]; intros acc w Hdisc Hfound.
  - cbn [app forallb] in *. apply andb_prop in Hdecl as [Hserver _].
    rewrite Nat.add_0_r in Hfound.
    assert (Hlist : list_discovered environ http_post (sent w) server = true)
      by (unfold list_discovered; now rewrite Hfound).
    destruct (register_servers_round server after acc w Hserver Hlist)
      as (l & w1 & Hl & Hwl & Hsent & ->).
    destruct (declared_server_fields server Hserver) as (Hwf & _).
    apply well_formed_server_name in Hwf as [_ Hname].
    pose proof (register_tools_nameless server l pre post td Hname Hl Hwl
                  Hpre Htd Hallowed acc w1) as Hraise.
    unfold tools_at, discovered_tools. rewrite Hfound. unfold bind.
    destruct (register_tools server (PList l) (pre ++ td :: post) acc w1)
      as [[e|tools] w2]; cbn in Hraise; [now subst|discriminate].
  - cbn [app forallb] in Hdecl. apply andb_prop in Hdecl as [Hb Hdecl].
    cbn [discoveries] in Hdisc.
    apply andb_prop in Hdisc as [Hdisc Hafter].
    apply andb_prop in Hdisc as [Hlist Htools].
    cbn [app].
    destruct (register_servers_round b (before ++ server :: after) acc w Hb Hlist)
      as (l & w1 & Hl & Hwl & Hsent & ->).
    destruct (declared_server_fields b Hb) as (Hwf & _).
    apply well_formed_server_name in Hwf as [_ Hname].
    destruct (register_tools_registers b l _ Hname Hl Hwl Htools acc w1)
      as (w2 & Hrun & Hsent2).
    unfold bind. rewrite Hrun. apply (IH Hdecl).
    + now rewrite Hsent2, Hsent.
    + rewrite Hsent2, Hsent. cbn [List.length] in Hfound.
      now rewrite Nat.add_succ_comm.
Qed.

Lemma discoveries_weaken (ok ok' : value -> value -> bool) (servers : list value) :
  (forall server td, ok server td = true -> ok' server td = true) ->
  forall n,
    discoveries environ http_post ok n servers = true ->
    discoveries environ http_post ok' n servers = true.
Proof.
  intros Himp. induction servers as [|server rest IH]; intros n H; [reflexivity|].
  cbn [discoveries] in *.
  apply andb_prop in H as [H Hrest]. apply andb_prop in H as [Hlist Htools].
  rewrite Hlist, (IH _ Hrest), andb_true_r. cbn.
  rewrite forallb_forall in *. auto.
Qed.

Lemma discoveries_app (ok : value -> value -> bool) (before after : list value) :
  forall n,
    discoveries environ http_post ok n (before ++ after)
    = discoveries environ http_post ok n before
      && discoveries environ http_post ok (n + List.length before) after.
Proof.
  induction before as [|b before IH]; intros n; cbn [app discoveries List.length].
  - now rewrite Nat.add_0_r.
  - now rewrite IH, Nat.add_succ_comm, !andb_assoc.
Qed.

End RegistryProofs.

(** ** The registry as a whole *)

Section Builder.

Variable environ : string -> option string.
Variable json_loads : string -> result value.
Variable http_post : nat -> request -> result value.

(** The builder on a configuration that is a list: the loader's INFO line,
    then the outer loop, then the closing INFO line. *)
Lemma create_mcp_client_tools_loops (servers : list value) (w : world) :
  json_loads (config_text environ) = inr (PList servers) ->
  exists w0,
    sent w0 = sent w
    /\ create_mcp_client_tools environ json_loads http_post w
       = (tools <- register_servers environ http_post servers [] ;;
          logger INFO ("Total MCP tools registered: "
                         ++ str_of_Z (Z.of_nat (List.length tools))) ;;;
          ret tools) w0.
Proof.
  intros Hloads.
  pose proof (load_mcp_config_loaded environ json_loads w _ _ Hloads eq_refl)
    as Hload.
  eexists. split; [|unfold create_mcp_client_tools, bind at 1; rewrite Hload;
                    reflexivity].
  reflexivity.
Qed.

Lemma named_tool_registrable (server td : value) :
  named_tool td = true -> registrable server td = true.
Proof. unfold registrable. now intros ->. Qed.

(** C4. Registry Builder.  On a configuration of descriptors of the data
    model, each of whose discoveries gives a list of named tool definitions,
    the builder returns the registry: server by server in configuration
    order, and within a server in discovery order, one wrapper for every
    tool that is in the whitelist, or for every tool when the whitelist is
    empty or absent; the wrapper is named after the server and the tool. *)
Theorem create_mcp_client_tools_registers (servers : list value) (w : world) :
  json_loads (config_text environ) = inr (PList servers) ->
  forallb declared_server servers = true ->
  discoveries environ http_post (fun _ => named_tool) (sent w) servers = true ->
  fst (create_mcp_client_tools environ json_loads http_post w)
  = inr (registry environ http_post (sent w) servers)
  /\ forall server td sname tname,
       field server "name" = PStr sname ->
       field td "name" = PStr tname ->
       get_name (wrapper server td) = sname ++ "_" ++ tname.
Proof.
  intros Hloads Hdecl Hdisc. split.
  - destruct (create_mcp_client_tools_loops servers w Hloads) as (w0 & Hsent & ->).
    apply (discoveries_weaken environ http_post _ registrable) in Hdisc;
      [|intros server td; apply named_tool_registrable].
    rewrite <- Hsent in Hdisc.
    destruct (register_servers_registers environ http_post servers Hdecl [] w0 Hdisc)
      as (w' & Hrun & _).
    unfold bind at 1. rewrite Hrun, Hsent. reflexivity.
  - intros server td sname tname Hs Ht.
    unfold get_name, wrapper, tool_name_of, field_or, field in *. cbn.
    rewrite Hs. destruct td as [| | | | |d]; try discriminate.
    destruct (lookup "name" d); [now subst|discriminate].
Qed.

(** C9. Registry Builder.  Let a server of the configuration discover a
    tool definition without a name, everything before it going through.
    When the whitelist of the server is empty, or holds the empty name, the
    builder raises [KeyError('name')].  When the whitelist is not empty and
    does not hold the empty name, the tool is left out, and with the rest
    going through the builder returns the registry. *)
Theorem create_mcp_client_tools_nameless_tool
        (before after pre post : list value) (server td : value) (w : world) :
  json_loads (config_text environ) = inr (PList (before ++ server :: after)) ->
  forallb declared_server (before ++ [server]) = true ->
  discoveries environ http_post registrable (sent w) before = true ->
  discovered (http_post (sent w + List.length before)
                (discovery_request environ server))
  = PList (pre ++ td :: post) ->
  forallb (registrable server) pre = true ->
  nameless_tool td = true ->
  (whitelist server = [] \/ In "" (whitelist server) ->
   fst (create_mcp_client_tools environ json_loads http_post w)
   = inl (KeyError "name"))
  /\ (whitelist server <> [] -> ~ In "" (whitelist server) ->
      forallb (registrable server) post = true ->
      forallb declared_server after = true ->
      discoveries environ http_post registrable
        (S (sent w + List.length before)) after = true ->
      allowed server td = false
      /\ fst (create_mcp_client_tools environ json_loads http_post w)
         = inr (registry environ http_post (sent w) (before ++ server :: after))).
Proof.
  intros Hloads Hdecl Hbefore Hfound Hpre Htd.
  destruct (create_mcp_client_tools_loops _ w Hloads) as (w0 & Hsent & ->).
  assert (Hname : tool_name_of td = "").
  { unfold nameless_tool in Htd. unfold tool_name_of, field_or.
    destruct td as [| | | | |d]; try discriminate.
    now destruct (lookup "name" d). }
  rewrite <- Hsent in Hbefore, Hfound. split.
  - intros Hwl.
    assert (Hallowed : allowed server td = true).
    { unfold allowed. rewrite Hname. unfold allowed_in.
      destruct Hwl as [->|Hin]; [reflexivity|].
      destruct (whitelist server); [reflexivity|].
      apply existsb_exists. exists "". now split. }
    pose proof (register_servers_nameless environ http_post before after pre post
                  server td Hdecl Hpre Htd Hallowed [] w0 Hbefore Hfound) as Hraise.
    unfold bind at 1.
    destruct (register_servers environ http_post (before ++ server :: after) [] w0)
      as [[e|tools] w']; cbn in Hraise; [now subst|discriminate].
  - intros Hne Hnotin Hpost Hafter Hdisc.
    assert (Hallowed : allowed server td = false).
    { unfold allowed. rewrite Hname. unfold allowed_in.
      destruct (whitelist server) as [|n names] eqn:Hw; [contradiction|].
      rewrite <- Hw in *.
      destruct (existsb (String.eqb "") (whitelist server)) eqn:Hex; [|reflexivity].
      apply existsb_exists in Hex as (x & Hin & Hx).
      apply String.eqb_eq in Hx. now subst. }
    split; [exact Hallowed|].
    assert (Hall : forallb declared_server (before ++ server :: after) = true).
    { rewrite forallb_app in Hdecl. apply andb_prop in Hdecl as [Hb Hs].
      rewrite forallb_app. cbn [forallb] in *. now rewrite Hb, Hafter, Hs. }
    assert (Hdiscs : discoveries environ http_post registrable (sent w0)
                       (before ++ server :: after) = true).
    { rewrite discoveries_app, Hbefore. cbn [discoveries andb].
      unfold list_discovered, tools_at, discovered_tools. rewrite Hfound.
      rewrite <- Hsent in Hdisc.
      cbn [is_list andb]. rewrite Hdisc, andb_true_r.
      rewrite forallb_app, Hpre. cbn [forallb andb].
      rewrite Hpost, andb_true_r.
      unfold registrable. now rewrite Htd, Hallowed, orb_true_r. }
    destruct (register_servers_registers environ http_post _ Hall [] w0 Hdiscs)
      as (w' & Hrun & _).
    unfold bind at 1. rewrite Hrun, Hsent. reflexivity.
Qed.

End Builder.

Lemma create_mcp_client_tools_registers_witness :
  match fst (create_mcp_client_tools two_servers_environ sample_json_loads
               (answers (tools_answer [read_tool; write_tool])) world0) with
  | inr tools => map get_name tools = ["fs_read"; "db_read"; "db_write"]
  | inl _ => False
  end.
Proof.
  destruct (create_mcp_client_tools_registers two_servers_environ
              sample_json_loads (answers (tools_answer [read_tool; write_tool]))
              [files_server; db_server] world0 eq_refl eq_refl eq_refl)
    as [-> _].
  reflexivity.
Defined.

Lemma create_mcp_client_tools_nameless_tool_witness :
  fst (create_mcp_client_tools (config_environ ("[" ++ db_text ++ "]"))
         sample_json_loads (answers (tools_answer [read_tool; anonymous_tool]))
         world0)
  = inl (KeyError "name")
  /\ match fst (create_mcp_client_tools two_servers_environ sample_json_loads
                  anonymous_first world0) with
     | inr tools => map get_name tools = ["fs_read"; "db_read"; "db_write"]
     | inl _ => False
     end.
Proof.
  split.
  - destruct (create_mcp_client_tools_nameless_tool
                (config_environ ("[" ++ db_text ++ "]")) sample_json_loads
                (answers (tools_answer [read_tool; anonymous_tool]))
                [] [] [read_tool] [] db_server anonymous_tool world0
                eq_refl eq_refl eq_refl eq_refl eq_refl eq_refl) as [Hraise _].
    apply Hraise. now left.
  - destruct (create_mcp_client_tools_nameless_tool
                two_servers_environ sample_json_loads anonymous_first
                [] [db_server] [read_tool] [] files_server anonymous_tool world0
                eq_refl eq_refl eq_refl eq_refl eq_refl eq_refl) as [_ Hskip].
    destruct Hskip as [_ ->]; try reflexivity; try discriminate.
    cbn. intros [H|[]]. discriminate.
Defined.

(** C9, as stated, fails on a whitelist that holds the empty name: it is
    not empty, and the tool without a name is not left out. *)
Lemma create_mcp_client_tools_blank_whitelist :
  let built :=
    fst (create_mcp_client_tools
           (config_environ ("[" ++ blank_whitelist_text ++ "]"))
           sample_json_loads (answers (tools_answer [anonymous_tool])) world0) in
  whitelist blank_whitelist_server = [""]
  /\ nameless_tool anonymous_tool = true
  /\ built = inl (KeyError "name")
  /\ built <> inr [].
Proof.
  intros built.
  assert (H : built = inl (KeyError "name")) by reflexivity.
  rewrite H. repeat split. discriminate.
Qed.

(** * Further properties *)

(** ** Env Substitution, anywhere in a text *)

Lemma template_app (sa sb : list (string * string)) (ta tb name : string) :
  template sa ta ++ placeholder name ++ template sb tb
  = template (sa ++ (ta, name) :: sb) tb.
Proof.
  induction sa as [|[pre n] sa IH]; cbn [template app]; [reflexivity|].
  now rewrite <- IH, !append_assoc.
Qed.

Lemma rendered_app (environ : string -> option string)
      (sa sb : list (string * string)) (ta tb name : string) :
  rendered environ sa ta ++ value_of environ name ++ rendered environ sb tb
  = rendered environ (sa ++ (ta, name) :: sb) tb.
Proof.
  induction sa as [|[pre n] sa IH]; cbn [rendered app]; [reflexivity|].
  now rewrite <- IH, !append_assoc.
Qed.

(** X1. A placeholder is replaced wherever it stands: the texts before and
    after it are substituted on their own, whatever they hold. *)
Theorem substitute_env_vars_at_placeholder
        (environ : string -> option string) (a name b : string) :
  identifier name = true ->
  substitute_env_vars environ (a ++ placeholder name ++ b)
  = substitute_env_vars environ a ++ value_of environ name
      ++ substitute_env_vars environ b.
Proof.
  intros Hid.
  destruct (cut_exists a) as (sa & ta & -> & Hsa & Hta).
  destruct (cut_exists b) as (sb & tb & -> & Hsb & Htb).
  rewrite template_app, !sub_rendered; trivial.
  - now rewrite rendered_app.
  - apply Forall_app. split; [exact Hsa|]. constructor; [|exact Hsb]. now split.
Qed.

Lemma substitute_env_vars_at_placeholder_witness :
  substitute_env_vars sample_environ ("${x${" ++ placeholder "TOKEN" ++ "}${TOKEN}")
  = "${x${" ++ "s3cret" ++ "}s3cret".
Proof.
  rewrite (substitute_env_vars_at_placeholder sample_environ "${x${" "TOKEN"
             "}${TOKEN}" eq_refl).
  reflexivity.
Defined.

(** ** Config Loader: when it raises *)

Lemma len_raises_TypeError (v : value) (e : exn) :
  len v = inl e -> is_JSONDecodeError e = false.
Proof. destruct v; cbn; intros [= <-]; reflexivity. Qed.

(** X2. The loader sends no request.  It raises exactly when [json.loads]
    raises something else than a decode error, or returns a value without a
    length; the exception is that one, and nothing has been logged. *)
Theorem load_mcp_config_raises
        (environ : string -> option string)
        (json_loads : string -> result value) (w : world) :
  sent (snd (load_mcp_config environ json_loads w)) = sent w
  /\ (forall e,
        fst (load_mcp_config environ json_loads w) = inl e <->
        (json_loads (config_text environ) = inl e /\ is_JSONDecodeError e = false)
        \/ (exists v, json_loads (config_text environ) = inr v /\ len v = inl e))
  /\ (forall e,
        fst (load_mcp_config environ json_loads w) = inl e ->
        snd (load_mcp_config environ json_loads w) = w).
Proof.
  unfold load_mcp_config, try_except, bind, lift, ret, logger.
  fold (config_text environ).
  destruct (json_loads (config_text environ)) as [e0|v] eqn:Hloads.
  - destruct (is_JSONDecodeError e0) eqn:Hdec; cbn.
    + split; [reflexivity|]. split; [|discriminate].
      intros e. split; [discriminate|].
      intros [[[= <-] He]|(v & Hv & _)]; congruence.
    + split; [reflexivity|]. split; [|reflexivity].
      intros e. split.
      * intros [= <-]. now left.
      * intros [[[= <-] _]|(v & Hv & _)]; [reflexivity|discriminate].
  - destruct (len v) as [e0|n] eqn:Hlen; cbn.
    + rewrite (len_raises_TypeError v e0 Hlen). cbn.
      split; [reflexivity|]. split; [|reflexivity].
      intros e. split.
      * intros [= <-]. right. now exists v.
      * intros [[Hv _]|(v' & [= <-] & He)]; [discriminate|congruence].
    + split; [reflexivity|]. split; [|discriminate].
      intros e. split; [discriminate|].
      intros [[Hv _]|(v' & [= <-] & He)]; [discriminate|congruence].
Qed.

(** ** Descriptors that cannot be sent to *)

Section IllFormed.

Variable environ : string -> option string.
Variable http_post : nat -> request -> result value.

Lemma substitute_items_fails (h : list (string * value)) :
  string_valued h = false -> exists e, substitute_items environ h = inl e.
Proof.
  induction h as [|[k v] h IH]; [discriminate|].
  cbn [string_valued forallb snd]. intros H.
  destruct v; cbn; eauto.
  cbn in H. destruct (IH H) as [e ->]. eauto.
Qed.

(** Without a url, or with headers that are no map of texts, the lines
    before the [try] block raise. *)
Lemma not_callable_prelude (server : value) :
  callable_server server = false ->
  (exists e, getitem server "url" = inl e)
  \/ (exists url h e,
        getitem server "url" = inr url
        /\ get server "headers" (PDict []) = inr h
        /\ substitute_headers environ h = inl e).
Proof.
  unfold callable_server, headers_ok. intros H.
  destruct server as [| | | | |sd]; try (left; cbn; eauto; fail).
  cbn. destruct (lookup "url" sd) as [url|]; [right|left; eauto].
  exists url. destruct (lookup "headers" sd) as [h|]; [|discriminate].
  exists h. destruct h as [| | | | |h]; try (eexists; cbn; eauto; fail).
  destruct (substitute_items_fails h H) as [e He].
  exists e. cbn. auto.
Qed.

Lemma call_mcp_tool_not_callable (server tool_name arguments : value) (w : world) :
  callable_server server = false ->
  exists e, call_mcp_tool environ http_post server tool_name arguments w = (inl e, w).
Proof.
  intros H. unfold call_mcp_tool.
  destruct (not_callable_prelude server H)
    as [[e Hurl]|(url & h & e & Hurl & Hget & Hsub)]; exists e.
  - unfold bind at 1, lift at 1. now rewrite Hurl.
  - unfold bind at 1 2 3, lift at 1 2 3. now rewrite Hurl, Hget, Hsub.
Qed.

Lemma discover_mcp_tools_not_callable (server : value) (w : world) :
  callable_server server = false ->
  exists e, discover_mcp_tools environ http_post server w = (inl e, w).
Proof.
  intros H. unfold discover_mcp_tools.
  destruct (not_callable_prelude server H)
    as [[e Hurl]|(url & h & e & Hurl & Hget & Hsub)]; exists e.
  - unfold bind at 1, lift at 1. now rewrite Hurl.
  - unfold bind at 1 2 3, lift at 1 2 3. now rewrite Hurl, Hget, Hsub.
Qed.

Lemma callable_nameless (server : value) :
  callable_server server = true ->
  well_formed_server server = false ->
  getitem server "name" = inl (KeyError "name").
Proof.
  unfold well_formed_server. intros Hc H. rewrite Hc in H.
  destruct server as [| | | | |sd]; try discriminate.
  cbn in *. now destruct (lookup "name" sd).
Qed.

(** With a url and headers but no name, Discovery sends its request and
    then raises, whatever it receives and whatever goes wrong. *)
Lemma discover_mcp_tools_nameless (server : value) (w : world) :
  callable_server server = true ->
  well_formed_server server = false ->
  discover_mcp_tools environ http_post server w
  = (inl (KeyError "name"), requested w).
Proof.
  intros Hc Hwf. pose proof (callable_nameless server Hc Hwf) as Hname.
  destruct (callable_server_prelude environ server Hc) as (Hurl & h & Hget & Hsub).
  unfold discover_mcp_tools. mstep. rewrite Hurl, Hget, Hsub. simpl.
  fold (discovery_request environ server). rewrite Hname.
  unfold requested.
  destruct (http_post (sent w) (discovery_request environ server))
    as [e|response]; simpl; [reflexivity|].
  py_cases; reflexivity.
Qed.

(** X3. Discovery of a descriptor that lacks a url, a name, or proper headers
    always raises: before a request is sent and with nothing changed when
    the url or the headers are at fault; after the request, with
    [KeyError('name')] and no log record, when only the name is missing. *)
Theorem discover_mcp_tools_raises (server : value) (w : world) :
  well_formed_server server = false ->
  (exists e, fst (discover_mcp_tools environ http_post server w) = inl e)
  /\ (callable_server server = false ->
      snd (discover_mcp_tools environ http_post server w) = w)
  /\ (callable_server server = true ->
      discover_mcp_tools environ http_post server w
      = (inl (KeyError "name"), requested w)).
Proof.
  intros Hwf. destruct (callable_server server) eqn:Hc.
  - rewrite (discover_mcp_tools_nameless server w Hc Hwf).
    split; [eexists; reflexivity|]. split; [discriminate|reflexivity].
  - destruct (discover_mcp_tools_not_callable server w Hc) as [e ->].
    split; [eexists; reflexivity|]. split; [reflexivity|discriminate].
Qed.

(** X5. Invocation of a descriptor that lacks a url or proper headers raises
    before a request is sent, with nothing changed. *)
Theorem call_mcp_tool_raises (server tool_name arguments : value) (w : world) :
  callable_server server = false ->
  exists e,
    call_mcp_tool environ http_post server tool_name arguments w = (inl e, w).
Proof. apply call_mcp_tool_not_callable. Qed.

End IllFormed.

Lemma discover_mcp_tools_raises_witness :
  discover_mcp_tools sample_environ (answers (tools_answer [read_tool]))
    nameless_server world0
  = (inl (KeyError "name"), requested world0)
  /\ discover_mcp_tools sample_environ (answers (tools_answer [read_tool]))
       urlless_server world0
     = (inl (KeyError "url"), world0).
Proof.
  destruct (discover_mcp_tools_raises sample_environ
              (answers (tools_answer [read_tool])) nameless_server world0 eq_refl)
    as (_ & _ & Hnameless).
  split; [exact (Hnameless eq_refl)|].
  destruct (discover_mcp_tools_raises sample_environ
              (answers (tools_answer [read_tool])) urlless_server world0 eq_refl)
    as ([e He] & Hworld & _).
  specialize (Hworld eq_refl).
  destruct (discover_mcp_tools sample_environ (answers (tools_answer [read_tool]))
              urlless_server world0) as [r w'] eqn:Hrun.
  cbn in He, Hworld. subst. f_equal.
  apply (f_equal fst) in Hrun. cbn in Hrun. now rewrite <- Hrun.
Defined.

Lemma call_mcp_tool_raises_witness :
  callable_server numeric_header_server = false
  /\ exists e,
       call_mcp_tool sample_environ unreachable numeric_header_server
         (PStr "read") (PDict []) world0
       = (inl e, world0).
Proof.
  split; [reflexivity|].
  exact (call_mcp_tool_raises sample_environ unreachable numeric_header_server
           (PStr "read") (PDict []) world0 eq_refl).
Defined.

(** ** Tool Discovery: what is returned *)

(** X4. When the answer holds [result.tools] and that value has a length,
    Discovery returns it as it is, be it a list or not, after one request
    and one INFO record that tells its length and the server name. *)
Theorem discover_mcp_tools_verbatim
        (environ : string -> option string)
        (http_post : nat -> request -> result value)
        (server response tools : value) (n : nat) (w : world) :
  well_formed_server server = true ->
  http_post (sent w) (discovery_request environ server) = inr response ->
  result_tools response = Some tools ->
  len tools = inr n ->
  discover_mcp_tools environ http_post server w
  = (inr tools,
     logged (requested w) INFO
       ("Discovered " ++ str_of_Z (Z.of_nat n) ++ " tools from "
          ++ Py.str (field server "name"))).
Proof.
  intros Hwf Hpost Htools Hlen.
  apply well_formed_server_name in Hwf as [Hc Hname].
  destruct (callable_server_prelude environ server Hc) as (Hurl & h & Hget & Hsub).
  unfold discover_mcp_tools. mstep. rewrite Hurl, Hget, Hsub. simpl.
  fold (discovery_request environ server). rewrite Hpost, Hname. simpl.
  unfold result_tools in Htools.
  destruct response as [| | | | |d]; try discriminate.
  unfold contains, getitem. cbn.
  destruct (lookup "result" d) as [[| | | | |r]|]; try discriminate. cbn.
  rewrite Htools. cbn. rewrite Hlen. reflexivity.
Qed.

Lemma discover_mcp_tools_verbatim_witness :
  discover_mcp_tools sample_environ (answers (tools_answer [read_tool; write_tool]))
    fs_server world0
  = (inr (PList [read_tool; write_tool]),
     logged (requested world0) INFO "Discovered 2 tools from fs")
  /\ fst (discover_mcp_tools sample_environ
            (answers (PDict [("result", PDict [("tools", PStr "read")])]))
            fs_server world0)
     = inr (PStr "read").
Proof.
  split.
  - exact (discover_mcp_tools_verbatim sample_environ
             (answers (tools_answer [read_tool; write_tool])) fs_server
             (tools_answer [read_tool; write_tool]) (PList [read_tool; write_tool])
             2 world0 eq_refl eq_refl eq_refl eq_refl).
  - now rewrite (discover_mcp_tools_verbatim sample_environ
                   (answers (PDict [("result", PDict [("tools", PStr "read")])]))
                   fs_server (PDict [("result", PDict [("tools", PStr "read")])])
                   (PStr "read") 4 world0 eq_refl eq_refl eq_refl eq_refl).
Defined.

(** ** Tool Invocation: effects and answers of other shapes *)

Section InvocationMore.

Variable environ : string -> option string.
Variable http_post : nat -> request -> result value.

(** Looking into the answer changes nothing. *)
Lemma inspect_answer_pure (response : value) (w : world) :
  snd (inspect_answer response w) = w.
Proof.
  unfold inspect_answer, bind, lift, ret.
  repeat split_match; reflexivity.
Qed.

(** X6. Invocation on a callable descriptor sends exactly one request.  It
    either leaves the log as it was, or returns the failure text of an
    exception and has appended the one ERROR record that names the tool and
    that exception. *)
Theorem call_mcp_tool_effects (server tool_name arguments : value) (w : world) :
  callable_server server = true ->
  exists text w',
    call_mcp_tool environ http_post server tool_name arguments w = (inr text, w')
    /\ sent w' = S (sent w)
    /\ (w' = requested w
        \/ exists e,
             text = "Error calling tool: " ++ exn_str e
             /\ w' = logged (requested w) ERROR
                       ("Failed to call MCP tool " ++ Py.str tool_name ++ ": "
                          ++ exn_str e)).
Proof.
  intros Hc. rewrite (call_mcp_tool_sends environ http_post _ _ _ _ Hc).
  destruct (http_post (sent w) _) as [e|response].
  - do 2 eexists. split; [reflexivity|]. split; [reflexivity|].
    right. exists e. split; reflexivity.
  - unfold try_except.
    pose proof (inspect_answer_pure response (requested w)) as Hpure.
    destruct (inspect_answer response (requested w)) as [[e|text] w1].
    + cbn in Hpure. subst w1. do 2 eexists.
      split; [reflexivity|]. split; [reflexivity|].
      right. exists e. split; reflexivity.
    + cbn in Hpure. subst w1. do 2 eexists.
      split; [reflexivity|]. split; [reflexivity|]. now left.
Qed.

(** X7. When the [result] of the answer is an object without [content], the
    call returns the text of the empty list; when its [content] is no array,
    the call returns the string form of that content. *)
Theorem call_mcp_tool_other_content
        (server tool_name arguments : value) (w : world)
        (d r : list (string * value)) :
  callable_server server = true ->
  http_post (sent w) (invocation_request environ server tool_name arguments)
  = inr (PDict d) ->
  lookup "result" d = Some (PDict r) ->
  match lookup "content" r with
  | None =>
      fst (call_mcp_tool environ http_post server tool_name arguments w) = inr "[]"
  | Some (PList _) => True
  | Some content =>
      fst (call_mcp_tool environ http_post server tool_name arguments w)
      = inr (Py.str content)
  end.
Proof.
  intros Hc Hpost Hr.
  rewrite (call_mcp_tool_sends environ http_post _ _ _ _ Hc), Hpost.
  unfold try_except, inspect_answer, bind, lift, ret, contains, getitem, get.
  cbn. rewrite Hr. cbn.
  destruct (lookup "content" r) as [[]|]; trivial.
Qed.

Lemma join_from_fails (content : list value) :
  texts_are_strings content = false ->
  forall i,
  exists j t,
    join_from i (content_texts content)
    = inl (TypeError ("sequence item " ++ str_of_Z (Z.of_nat j)
                        ++ ": expected str instance, " ++ type_name t ++ " found"))
    /\ is_str t = false.
Proof.
  induction content as [|c content IH]; [discriminate|].
  cbn [texts_are_strings forallb]. intros H i.
  destruct c as [| | | | |d]; cbn [content_texts]; try (apply IH; exact H).
  destruct (lookup "text" d) as [t|].
  - destruct (is_str t) eqn:Ht.
    + destruct t; try discriminate. cbn [join_from].
      destruct (IH H (S i)) as (j & t' & -> & Ht'). now exists j, t'.
    + exists i, t. split; [|exact Ht]. now destruct t.
  - cbn [join_from]. destruct (IH H (S i)) as (j & t' & -> & Ht'). now exists j, t'.
Qed.

(** X8. A successful answer of the wrong types is reported as a failed call:
    a [result] that is no object gives the text of the attribute error, and
    a content array with a [text] field that is no text gives the text of
    the type error of the join. *)
Theorem call_mcp_tool_answer_type_errors
        (server tool_name arguments r : value) (w : world)
        (d : list (string * value)) :
  callable_server server = true ->
  http_post (sent w) (invocation_request environ server tool_name arguments)
  = inr (PDict d) ->
  lookup "result" d = Some r ->
  (is_dict r = false ->
   fst (call_mcp_tool environ http_post server tool_name arguments w)
   = inr ("Error calling tool: '" ++ type_name r
            ++ "' object has no attribute 'get'"))
  /\ (forall rd content,
        r = PDict rd ->
        lookup "content" rd = Some (PList content) ->
        texts_are_strings content = false ->
        exists j t,
          is_str t = false
          /\ fst (call_mcp_tool environ http_post server tool_name arguments w)
             = inr ("Error calling tool: sequence item " ++ str_of_Z (Z.of_nat j)
                      ++ ": expected str instance, " ++ type_name t ++ " found")).
Proof.
  intros Hc Hpost Hr.
  rewrite (call_mcp_tool_sends environ http_post _ _ _ _ Hc), Hpost.
  unfold try_except, inspect_answer, bind, lift, ret, contains, getitem.
  cbn. rewrite Hr. cbn. split.
  - intros Hnd. destruct r; try discriminate; reflexivity.
  - intros rd content -> Hcontent Hstr. cbn. rewrite Hcontent.
    destruct (join_from_fails content Hstr 0) as (j & t & Hjoin & Ht).
    exists j, t. split; [exact Ht|].
    destruct (content_texts content) as [|x xs] eqn:Hx; [discriminate|].
    unfold join. now rewrite Hjoin.
Qed.

End InvocationMore.

Lemma call_mcp_tool_effects_witness :
  callable_server fs_server = true
  /\ exists text w',
       call_mcp_tool sample_environ unreachable fs_server (PStr "read") (PDict [])
         world0
       = (inr text, w')
       /\ sent w' = 1.
Proof.
  split; [reflexivity|].
  destruct (call_mcp_tool_effects sample_environ unreachable fs_server
              (PStr "read") (PDict []) world0 eq_refl)
    as (text & w' & Hrun & Hsent & _).
  exists text, w'. split; assumption.
Defined.

Lemma call_mcp_tool_other_content_witness :
  fst (call_mcp_tool sample_environ (answers (PDict [("result", PDict [])]))
         fs_server (PStr "read") (PDict []) world0)
  = inr "[]"
  /\ fst (call_mcp_tool sample_environ
            (answers (PDict [("result", PDict [("content", PNone)])]))
            fs_server (PStr "read") (PDict []) world0)
     = inr "None".
Proof.
  split.
  - exact (call_mcp_tool_other_content sample_environ
             (answers (PDict [("result", PDict [])]))
             fs_server (PStr "read") (PDict []) world0
             [("result", PDict [])] [] eq_refl eq_refl eq_refl).
  - exact (call_mcp_tool_other_content sample_environ
             (answers (PDict [("result", PDict [("content", PNone)])]))
             fs_server (PStr "read") (PDict []) world0
             [("result", PDict [("content", PNone)])] [("content", PNone)]
             eq_refl eq_refl eq_refl).
Defined.

Lemma call_mcp_tool_answer_type_errors_witness :
  fst (call_mcp_tool sample_environ (answers (PDict [("result", PNone)]))
         fs_server (PStr "read") (PDict []) world0)
  = inr "Error calling tool: 'NoneType' object has no attribute 'get'"
  /\ exists j t,
       is_str t = false
       /\ fst (call_mcp_tool sample_environ
                 (answers (content_answer [PDict [("text", PStr "a")];
                                           PDict [("text", PInt 7)]]))
                 fs_server (PStr "read") (PDict []) world0)
          = inr ("Error calling tool: sequence item " ++ str_of_Z (Z.of_nat j)
                   ++ ": expected str instance, " ++ type_name t ++ " found").
Proof.
  split.
  - destruct (call_mcp_tool_answer_type_errors sample_environ
                (answers (PDict [("result", PNone)]))
                fs_server (PStr "read") (PDict []) PNone world0
                [("result", PNone)] eq_refl eq_refl eq_refl) as [H _].
    exact (H eq_refl).
  - destruct (call_mcp_tool_answer_type_errors sample_environ
                (answers (content_answer [PDict [("text", PStr "a")];
                                          PDict [("text", PInt 7)]]))
                fs_server (PStr "read") (PDict [])
                (PDict [("content", PList [PDict [("text", PStr "a")];
                                           PDict [("text", PInt 7)]])])
                world0
                [("result", PDict [("content", PList [PDict [("text", PStr "a")];
                                                      PDict [("text", PInt 7)]])])]
                eq_refl eq_refl eq_refl) as [_ H].
    exact (H _ _ eq_refl eq_refl eq_refl).
Defined.

(** ** The wrapper: construction and names *)

(** X9. The constructor fails exactly when the server or the tool definition
    has no name, the server being looked at first.  Otherwise the wrapper is
    named after both, and its function descriptor carries that name, the
    description or the empty text, and the input schema or the empty object,
    as the tool definition holds them. *)
Theorem MCPClientTool_init_outcome (server td : value) :
  match getitem server "name", getitem td "name" with
  | inl e, _ => MCPClientTool_init server td = inl e
  | inr _, inl e => MCPClientTool_init server td = inl e
  | inr sname, inr tname =>
      exists self,
        MCPClientTool_init server td = inr self
        /\ get_name self = Py.str sname ++ "_" ++ Py.str tname
        /\ get_tool_definition self
           = PDict [("type", PStr "function");
                    ("function",
                     PDict [("name", PStr (Py.str sname ++ "_" ++ Py.str tname));
                            ("description", field_or td "description" (PStr ""));
                            ("parameters", field_or td "inputSchema" (PDict []))])]
  end.
Proof.
  unfold MCPClientTool_init.
  destruct (getitem server "name") as [e|sname]; [reflexivity|].
  destruct (getitem td "name") as [e|tname] eqn:Ht; [reflexivity|].
  destruct td as [| | | | |d]; try discriminate.
  cbn. destruct (lookup "description" d), (lookup "inputSchema" d);
    eexists; (split; [reflexivity|]); split; reflexivity.
Qed.



(** X11. With an underscore in a server name the names can collide: the
    tool [z] of the server [x_y] and the tool [y_z] of the server [x] get
    the same wrapper name. *)
Theorem wrapper_names_collide (x y z : string) :
  exists self self',
    MCPClientTool_init (PDict [("name", PStr (x ++ "_" ++ y))])
                       (PDict [("name", PStr z)]) = inr self
    /\ MCPClientTool_init (PDict [("name", PStr x)])
                          (PDict [("name", PStr (y ++ "_" ++ z))]) = inr self'
    /\ get_name self = get_name self'
    /\ server_config self <> server_config self'.
Proof.
  do 2 eexists. split; [reflexivity|]. split; [reflexivity|]. split.
  - cbn. now rewrite !append_assoc.
  - cbn. intros [= H]. apply (f_equal String.length) in H.
    rewrite !append_length in H. cbn in H. lia.
Qed.


(** ** The wrapper: execution *)

Section WrapperMore.

Variable environ : string -> option string.
Variable json_loads : string -> result value.
Variable http_post : nat -> request -> result value.

Lemma last_message_rev (messages : list CompletionMessage) (m : CompletionMessage) :
  last_message messages = Some m -> exists rest, rev messages = m :: rest.
Proof.
  unfold last_message. rewrite <- rev_head_last.
  destruct (rev messages) as [|x rest]; [discriminate|].
  intros [= ->]. now exists rest.
Qed.

(** [run] on a history whose last message holds a tool call. *)
Lemma run_calls (server td arguments : value) (self : MCPClientTool)
      (messages : list CompletionMessage) (m : CompletionMessage)
      (tool_call : ToolCall) (w : world) :
  MCPClientTool_init server td = inr self ->
  last_message messages = Some m ->
  first_tool_call m = Some tool_call ->
  decoded json_loads (tc_arguments tool_call) = Some arguments ->
  run environ json_loads http_post self messages w
  = match call_mcp_tool environ http_post server (field td "name") arguments w with
    | (inr text, w') =>
        (inr (mkToolResponse (tc_call_id tool_call) (_name self) text
                [("mcp_server", field server "name")]), w')
    | (inl e, w') => (inl e, w')
    end.
Proof.
  intros Hinit Hlast Hfirst Hdec.
  destruct (MCPClientTool_init_fields server td self Hinit)
    as (Hs & Ht & Hsname & Htname & _).
  destruct (last_message_rev messages m Hlast) as [rest Hrev].
  unfold run. rewrite Hrev. unfold first_tool_call in Hfirst.
  destruct (tool_calls m) as [[|tc calls]|]; try discriminate.
  injection Hfirst as ->.
  unfold bind at 1. rewrite (parse_arguments_decoded _ _ _ _ Hdec).
  rewrite Hs, Ht. unfold bind at 1, lift at 1. rewrite Htname.
  unfold bind at 1.
  destruct (call_mcp_tool environ http_post server (field td "name") arguments w)
    as [[e|text] w']; [reflexivity|].
  unfold bind, lift, ret. now rewrite Hsname.
Qed.

(** X12. A wrapper built by its constructor on a callable server does not
    raise on a pending tool call whose arguments can be decoded: it returns
    a response under its own name and the call id, after exactly one
    request. *)
Theorem run_returns (server td arguments : value) (self : MCPClientTool)
        (messages : list CompletionMessage) (m : CompletionMessage)
        (tool_call : ToolCall) (w : world) :
  MCPClientTool_init server td = inr self ->
  callable_server server = true ->
  last_message messages = Some m ->
  first_tool_call m = Some tool_call ->
  decoded json_loads (tc_arguments tool_call) = Some arguments ->
  exists text w',
    run environ json_loads http_post self messages w
    = (inr (mkToolResponse (tc_call_id tool_call) (get_name self) text
              [("mcp_server", field server "name")]), w')
    /\ sent w' = S (sent w).
Proof.
  intros Hinit Hc Hlast Hfirst Hdec.
  rewrite (run_calls _ _ _ _ _ _ _ w Hinit Hlast Hfirst Hdec).
  rewrite (call_mcp_tool_sends environ http_post _ _ _ _ Hc).
  destruct (http_post (sent w) _) as [e|response].
  - do 2 eexists. split; reflexivity.
  - unfold try_except.
    pose proof (inspect_answer_pure response (requested w)) as Hpure.
    destruct (inspect_answer response (requested w)) as [[e|text] w1];
      cbn in Hpure; subst w1; do 2 eexists; split; reflexivity.
Qed.

(** X13. On a server without a url or proper headers the same call makes
    [run] raise, before any request, with nothing changed. *)
Theorem run_raises (server td arguments : value) (self : MCPClientTool)
        (messages : list CompletionMessage) (m : CompletionMessage)
        (tool_call : ToolCall) (w : world) :
  MCPClientTool_init server td = inr self ->
  callable_server server = false ->
  last_message messages = Some m ->
  first_tool_call m = Some tool_call ->
  decoded json_loads (tc_arguments tool_call) = Some arguments ->
  exists e, run environ json_loads http_post self messages w = (inl e, w).
Proof.
  intros Hinit Hc Hlast Hfirst Hdec.
  rewrite (run_calls _ _ _ _ _ _ _ w Hinit Hlast Hfirst Hdec).
  destruct (call_mcp_tool_not_callable environ http_post server
              (field td "name") arguments w Hc) as [e ->].
  now exists e.
Qed.

(** X14. [run] looks at nothing but the call id and the arguments of the
    first tool call of the last message: earlier messages, further tool
    calls and the tool name written in the call make no difference. *)
Theorem run_reads_first_call (self : MCPClientTool)
        (messages messages' : list CompletionMessage)
        (m m' : CompletionMessage) (tool_call tool_call' : ToolCall) (w : world) :
  last_message messages = Some m ->
  last_message messages' = Some m' ->
  first_tool_call m = Some tool_call ->
  first_tool_call m' = Some tool_call' ->
  tc_call_id tool_call = tc_call_id tool_call' ->
  tc_arguments tool_call = tc_arguments tool_call' ->
  run environ json_loads http_post self messages w
  = run environ json_loads http_post self messages' w.
Proof.
  intros Hlast Hlast' Hfirst Hfirst' Hid Hargs.
  destruct (last_message_rev messages m Hlast) as [rest Hrev].
  destruct (last_message_rev messages' m' Hlast') as [rest' Hrev'].
  unfold run. rewrite Hrev, Hrev'. unfold first_tool_call in Hfirst, Hfirst'.
  destruct (tool_calls m) as [[|tc calls]|]; try discriminate.
  destruct (tool_calls m') as [[|tc' calls']|]; try discriminate.
  injection Hfirst as ->. injection Hfirst' as ->.
  now rewrite Hid, Hargs.
Qed.

End WrapperMore.

(** ** The builder: requests, isolation and what stops it *)

Section BuilderMore.

Variable environ : string -> option string.
Variable json_loads : string -> result value.
Variable http_post : nat -> request -> result value.

(** The outer loop on two lists in a row. *)
Lemma register_servers_app (before rest : list value) :
  forall acc w,
    register_servers environ http_post (before ++ rest) acc w
    = bind (register_servers environ http_post before acc)
           (register_servers environ http_post rest) w.
Proof.
  induction before as [|b before IH]; intros acc w; [reflexivity|].
  cbn [app]. rewrite !register_servers_cons. unfold bind, lift, logger.
  destruct (get b "name" (PStr "unknown")); [reflexivity|].
  destruct (get b "tools" (PList [])); [reflexivity|].
  destruct (discover_mcp_tools environ http_post b _) as [[e|tools] w1];
    [reflexivity|].
  destruct (iter tools); [reflexivity|].
  destruct (register_tools b _ _ acc w1) as [[e|acc'] w2]; [reflexivity|].
  apply IH.
Qed.

Lemma registry_app (before rest : list value) :
  forall n,
    registry environ http_post n (before ++ rest)
    = (registry environ http_post n before
         ++ registry environ http_post (n + List.length before) rest)%list.
Proof.
  induction before as [|b before IH]; intros n; cbn [app registry List.length].
  - now rewrite Nat.add_0_r.
  - now rewrite IH, Nat.add_succ_comm, app_assoc.
Qed.

(** The builder on a configuration of the data model whose tools it gets
    past, with the world it leaves. *)
Lemma create_mcp_client_tools_builds (servers : list value) (w : world) :
  json_loads (config_text environ) = inr (PList servers) ->
  forallb declared_server servers = true ->
  discoveries environ http_post registrable (sent w) servers = true ->
  exists w1,
    create_mcp_client_tools environ json_loads http_post w
    = (inr (registry environ http_post (sent w) servers),
       logged w1 INFO
         ("Total MCP tools registered: "
            ++ str_of_Z (Z.of_nat (List.length
                                     (registry environ http_post (sent w) servers)))))
    /\ sent w1 = sent w + List.length servers.
Proof.
  intros Hloads Hdecl Hdisc.
  destruct (create_mcp_client_tools_loops environ json_loads http_post servers w Hloads)
    as (w0 & Hsent & ->).
  rewrite <- Hsent in Hdisc.
  destruct (register_servers_registers environ http_post servers Hdecl [] w0 Hdisc)
    as (w1 & Hrun & Hsent1).
  exists w1. unfold bind at 1. rewrite Hrun, Hsent in *. cbn [app].
  split; [reflexivity|exact Hsent1].
Qed.

(** X15. On a configuration of the data model whose tools it gets past, the
    builder sends one request per server and no other, and its last log
    record tells the number of wrappers it returns. *)
Theorem create_mcp_client_tools_requests (servers : list value) (w : world) :
  json_loads (config_text environ) = inr (PList servers) ->
  forallb declared_server servers = true ->
  discoveries environ http_post registrable (sent w) servers = true ->
  exists tools w',
    create_mcp_client_tools environ json_loads http_post w = (inr tools, w')
    /\ sent w' = sent w + List.length servers
    /\ exists records,
         log w' = (records ++ [(INFO, ("Total MCP tools registered: "
                                         ++ str_of_Z (Z.of_nat (List.length tools)))%string)])%list.
Proof.
  intros Hloads Hdecl Hdisc.
  destruct (create_mcp_client_tools_builds servers w Hloads Hdecl Hdisc)
    as (w1 & -> & Hsent).
  do 2 eexists. split; [reflexivity|]. split; [exact Hsent|].
  now exists (log w1).
Qed.

(** X16. A server whose request fails adds no wrapper and stops nothing: the
    servers before and after it are registered as they would be without it,
    the later ones one request later. *)
Theorem create_mcp_client_tools_isolates_failure
        (before after : list value) (server : value) (e : exn) (w : world) :
  json_loads (config_text environ) = inr (PList (before ++ server :: after)) ->
  forallb declared_server (before ++ server :: after) = true ->
  discoveries environ http_post registrable (sent w) before = true ->
  http_post (sent w + List.length before) (discovery_request environ server)
  = inl e ->
  discoveries environ http_post registrable
    (S (sent w + List.length before)) after = true ->
  fst (create_mcp_client_tools environ json_loads http_post w)
  = inr (registry environ http_post (sent w) before
           ++ registry environ http_post (S (sent w + List.length before)) after)%list.
Proof.
  intros Hloads Hdecl Hbefore Hfail Hafter.
  assert (Hdisc : discoveries environ http_post registrable (sent w)
                    (before ++ server :: after) = true).
  { rewrite discoveries_app, Hbefore. cbn [discoveries andb].
    unfold list_discovered, tools_at, discovered_tools. rewrite Hfail. cbn.
    exact Hafter. }
  destruct (create_mcp_client_tools_builds _ w Hloads Hdecl Hdisc) as (w1 & -> & _).
  cbn [fst]. rewrite registry_app. cbn [registry].
  unfold tools_at at 1, discovered_tools. rewrite Hfail. reflexivity.
Qed.

End BuilderMore.

Section BuilderStops.

Variable environ : string -> option string.
Variable json_loads : string -> result value.
Variable http_post : nat -> request -> result value.

(** The builder, once the servers in [before] have gone through: it goes on
    with the rest from the wrappers and the world they left. *)
Lemma create_mcp_client_tools_after (before rest : list value) (w : world) :
  json_loads (config_text environ) = inr (PList (before ++ rest)) ->
  forallb declared_server before = true ->
  discoveries environ http_post registrable (sent w) before = true ->
  exists w1,
    sent w1 = sent w + List.length before
    /\ create_mcp_client_tools environ json_loads http_post w
       = (tools <- register_servers environ http_post rest
                     (registry environ http_post (sent w) before) ;;
          logger INFO ("Total MCP tools registered: "
                         ++ str_of_Z (Z.of_nat (List.length tools))) ;;;
          ret tools) w1.
Proof.
  intros Hloads Hdecl Hdisc.
  destruct (create_mcp_client_tools_loops environ json_loads http_post _ w Hloads)
    as (w0 & Hsent & ->).
  rewrite <- Hsent in Hdisc.
  destruct (register_servers_registers environ http_post before Hdecl [] w0 Hdisc)
    as (w1 & Hrun & Hsent1).
  exists w1. split; [now rewrite Hsent1, Hsent|].
  unfold bind at 1 3.
  rewrite register_servers_app. unfold bind at 1. rewrite Hrun, Hsent.
  reflexivity.
Qed.

Lemma register_servers_ill_formed (server : value) (rest : list value)
      (acc : list MCPClientTool) (w : world) :
  well_formed_server server = false ->
  exists e, fst (register_servers environ http_post (server :: rest) acc w) = inl e.
Proof.
  intros Hwf. rewrite register_servers_cons. unfold bind, lift, logger.
  destruct (get server "name" (PStr "unknown")) as [e|name]; [now exists e|].
  destruct (get server "tools" (PList [])) as [e|wl]; [now exists e|].
  destruct (callable_server server) eqn:Hc.
  - rewrite (discover_mcp_tools_nameless environ http_post server _ Hc Hwf).
    now eexists.
  - destruct (discover_mcp_tools_not_callable environ http_post server
                (logged w INFO ("Processing MCP server: " ++ Py.str name)) Hc)
      as [e ->].
    now exists e.
Qed.

(** X17. A descriptor without a name, a url or proper headers stops the
    whole build with an exception, however many servers went through before
    it and whatever follows it. *)
Theorem create_mcp_client_tools_stops_at_ill_formed
        (before after : list value) (server : value) (w : world) :
  json_loads (config_text environ) = inr (PList (before ++ server :: after)) ->
  forallb declared_server before = true ->
  discoveries environ http_post registrable (sent w) before = true ->
  well_formed_server server = false ->
  exists e, fst (create_mcp_client_tools environ json_loads http_post w) = inl e.
Proof.
  intros Hloads Hdecl Hdisc Hwf.
  destruct (create_mcp_client_tools_after before (server :: after) w
              Hloads Hdecl Hdisc) as (w1 & _ & ->).
  destruct (register_servers_ill_formed server after
              (registry environ http_post (sent w) before) w1 Hwf) as [e He].
  exists e. unfold bind at 1.
  destruct (register_servers environ http_post (server :: after) _ w1)
    as [[e'|tools] w2]; cbn in He; [exact He|discriminate].
Qed.

(** X18. When the configuration is read to a value whose first element, as
    a loop visits it, is no object, the builder raises the attribute error
    of [.get]: so it does on an object, whose keys are visited, on a text
    and on an array that starts with another value. *)
Theorem create_mcp_client_tools_first_no_object
        (v x : value) (rest : list value) (w : world) :
  json_loads (config_text environ) = inr v ->
  iter v = inr (x :: rest) ->
  is_dict x = false ->
  fst (create_mcp_client_tools environ json_loads http_post w)
  = inl (no_attribute x "get").
Proof.
  intros Hloads Hiter Hx.
  assert (Hlen : exists n, len v = inr n)
    by (destruct v; try discriminate; cbn; eauto).
  destruct Hlen as [n Hlen].
  unfold create_mcp_client_tools, bind at 1.
  rewrite (load_mcp_config_loaded environ json_loads w v n Hloads Hlen).
  unfold bind at 1, lift at 1. rewrite Hiter.
  unfold bind at 1. rewrite register_servers_cons.
  unfold bind at 1, lift at 1.
  destruct x; try discriminate; reflexivity.
Qed.

End BuilderStops.

Section BuilderTools.

Variable environ : string -> option string.
Variable json_loads : string -> result value.
Variable http_post : nat -> request -> result value.

(** One round of the outer loop on a descriptor of the data model, whatever
    its discovery gives: the inner loop runs on the elements of that value. *)
Lemma register_servers_round_iter (server : value) (rest tds : list value)
      (acc : list MCPClientTool) (w : world) :
  declared_server server = true ->
  iter (discovered (http_post (sent w) (discovery_request environ server)))
  = inr tds ->
  exists l w1,
    forallb is_str l = true
    /\ whitelist server = texts_of l
    /\ register_servers environ http_post (server :: rest) acc w
       = bind (register_tools server (PList l) tds acc)
              (register_servers environ http_post rest) w1.
Proof.
  intros Hdecl Hiter.
  destruct (declared_server_fields server Hdecl)
    as (Hwf & Hname & l & Htools & Hl & Hwl).
  pose (w0 := logged w INFO ("Processing MCP server: " ++ Py.str (field server "name"))).
  destruct (discover_mcp_tools_returns environ http_post server w0 Hwf)
    as (w1 & Hdisc & Hsent).
  exists l, w1. repeat split; try assumption.
  rewrite register_servers_cons.
  unfold bind at 1, lift at 1. rewrite Hname.
  unfold bind at 1, lift at 1. rewrite Htools.
  unfold bind at 1, logger at 1. fold w0.
  unfold bind at 1. rewrite Hdisc. change (sent w0) with (sent w).
  unfold bind at 1, lift at 1. now rewrite Hiter.
Qed.

(** The inner loop stops at the first element that is no object. *)
Lemma register_tools_no_object (server : value) (l pre post : list value)
      (td : value) :
  getitem server "name" = inr (field server "name") ->
  forallb is_str l = true ->
  whitelist server = texts_of l ->
  forallb (registrable server) pre = true ->
  is_dict td = false ->
  forall acc w,
    fst (register_tools server (PList l) (pre ++ td :: post) acc w)
    = inl (no_attribute td "get").
Proof.
  intros Hname Hl Hwl Hpre Htd.
  induction pre as [|p pre IH]; intros acc w.
  - cbn [app]. rewrite register_tools_cons. unfold bind at 1, lift at 1.
    destruct td; try discriminate; reflexivity.
  - cbn [forallb] in Hpre. apply andb_prop in Hpre as [Hp Hpre].
    cbn [app]. rewrite register_tools_cons. unfold bind at 1, lift at 1.
    rewrite (registrable_name _ _ Hp). unfold bind at 1.
    rewrite (whitelist_test _ _ _ Hl), <- Hwl.
    fold (allowed server p).
    destruct (allowed server p) eqn:Hap; cbn [negb].
    + unfold registrable in Hp. rewrite Hap, andb_false_r, orb_false_r in Hp.
      unfold bind at 1, lift at 1. rewrite (wrapper_built _ _ Hname Hp).
      unfold bind at 1, logger at 1. apply (IH Hpre).
    + unfold bind at 1, logger at 1. apply (IH Hpre).
Qed.

(** X19. Discovery is not checked for its shape: when a server of the
    configuration discovers a value whose elements, as a loop visits them,
    hold one that is no object, after tool definitions that go through, the
    builder raises the attribute error of [.get] on that element. *)
Theorem create_mcp_client_tools_tool_no_object
        (before after pre post : list value) (server td : value) (w : world) :
  json_loads (config_text environ) = inr (PList (before ++ server :: after)) ->
  forallb declared_server (before ++ [server]) = true ->
  discoveries environ http_post registrable (sent w) before = true ->
  iter (discovered (http_post (sent w + List.length before)
                      (discovery_request environ server)))
  = inr (pre ++ td :: post)%list ->
  forallb (registrable server) pre = true ->
  is_dict td = false ->
  fst (create_mcp_client_tools environ json_loads http_post w)
  = inl (no_attribute td "get").
Proof.
  intros Hloads Hdecl Hdisc Hiter Hpre Htd.
  rewrite forallb_app in Hdecl. apply andb_prop in Hdecl as [Hbefore Hserver].
  cbn [forallb] in Hserver. rewrite andb_true_r in Hserver.
  destruct (create_mcp_client_tools_after environ json_loads http_post before
              (server :: after) w Hloads Hbefore Hdisc) as (w1 & Hsent & ->).
  rewrite <- Hsent in Hiter.
  destruct (register_servers_round_iter server after _
              (registry environ http_post (sent w) before) w1 Hserver Hiter)
    as (l & w2 & Hl & Hwl & Hround).
  destruct (declared_server_fields server Hserver) as (Hwf & _).
  apply well_formed_server_name in Hwf as [_ Hname].
  pose proof (register_tools_no_object server l pre post td Hname Hl Hwl Hpre Htd
                (registry environ http_post (sent w) before) w2) as Hraise.
  unfold bind at 1. rewrite Hround. unfold bind at 1.
  destruct (register_tools server (PList l) (pre ++ td :: post) _ w2)
    as [[e|tools] w3]; cbn in Hraise; [now subst|discriminate].
Qed.

End BuilderTools.

(** ** The builder: whitelists that are no list *)

Section Whitelists.

Variable environ : string -> option string.
Variable json_loads : string -> result value.
Variable http_post : nat -> request -> result value.

Lemma get_field_or (sd : list (string * value)) (key : string) (default : value) :
  get (PDict sd) key default = inr (field_or (PDict sd) key default).
Proof. cbn. now destruct (lookup key sd). Qed.

(** One round of the outer loop on a descriptor with name, url and proper
    headers, whatever its whitelist is. *)
Lemma register_servers_round_any (server : value) (rest tds : list value)
      (acc : list MCPClientTool) (w : world) :
  well_formed_server server = true ->
  iter (discovered (http_post (sent w) (discovery_request environ server)))
  = inr tds ->
  exists w1,
    sent w1 = S (sent w)
    /\ register_servers environ http_post (server :: rest) acc w
       = bind (register_tools server (field_or server "tools" (PList [])) tds acc)
              (register_servers environ http_post rest) w1.
Proof.
  intros Hwf Hiter.
  pose (w0 := logged w INFO ("Processing MCP server: "
                               ++ Py.str (field_or server "name" (PStr "unknown")))).
  destruct (discover_mcp_tools_returns environ http_post server w0 Hwf)
    as (w1 & Hdisc & Hsent).
  exists w1. split; [exact Hsent|].
  rewrite register_servers_cons.
  assert (Hd : exists sd, server = PDict sd).
  { unfold well_formed_server, callable_server in Hwf.
    destruct server; try discriminate. eauto. }
  destruct Hd as [sd ->].
  unfold bind at 1, lift at 1. rewrite get_field_or.
  unfold bind at 1, lift at 1. rewrite get_field_or.
  unfold bind at 1, logger at 1. fold w0.
  unfold bind at 1. rewrite Hdisc. change (sent w0) with (sent w).
  unfold bind at 1, lift at 1. now rewrite Hiter.
Qed.

Lemma named_tool_name (td : value) :
  named_tool td = true ->
  get td "name" (PStr "") = inr (PStr (tool_name_of td)).
Proof.
  unfold named_tool, tool_name_of, field_or, get.
  destruct td as [| | | | |d]; try discriminate.
  destruct (lookup "name" d) as [[]|]; try discriminate; reflexivity.
Qed.

(** The inner loop under a whitelist that is a text: membership is the
    substring test. *)
Lemma register_tools_text_whitelist (server : value) (s : string)
      (tds : list value) :
  getitem server "name" = inr (field server "name") ->
  s <> "" ->
  forallb named_tool tds = true ->
  forall acc w,
  exists w',
    register_tools server (PStr s) tds acc w
    = (inr (acc ++ map (wrapper server)
                     (filter (fun td => substring_of (tool_name_of td) s) tds))%list,
       w')
    /\ sent w' = sent w.
Proof.
  intros Hname Hs. induction tds as [|td tds IH]; intros Hok acc w.
  - exists w. cbn. now rewrite app_nil_r.
  - cbn [forallb] in Hok. apply andb_prop in Hok as [Htd Hok].
    rewrite register_tools_cons. unfold bind at 1, lift at 1.
    rewrite (named_tool_name _ Htd). unfold bind at 1.
    assert (Htruthy : truthy (PStr s) = true).
    { cbn. destruct (String.eqb_spec s ""); [contradiction|reflexivity]. }
    rewrite Htruthy. unfold bind at 1, lift at 1, contains.
    unfold ret at 1. cbn [filter].
    destruct (substring_of (tool_name_of td) s); cbn [negb].
    + unfold bind at 1, lift at 1. rewrite (wrapper_built _ _ Hname Htd).
      unfold bind at 1, logger at 1.
      edestruct (IH Hok) as (w' & Hrun & Hsent).
      exists w'. rewrite Hrun. cbn [map]. rewrite <- app_assoc.
      split; [reflexivity|exact Hsent].
    + unfold bind at 1, logger at 1.
      edestruct (IH Hok) as (w' & Hrun & Hsent).
      exists w'. rewrite Hrun. split; [reflexivity|exact Hsent].
Qed.

(** X20. A whitelist written as one text instead of a list of texts is not
    refused: a tool is registered when its name occurs somewhere inside
    that text, and the servers before and after are registered as usual. *)
Theorem create_mcp_client_tools_text_whitelist
        (before after tds : list value) (server : value) (s : string) (w : world) :
  json_loads (config_text environ) = inr (PList (before ++ server :: after)) ->
  forallb declared_server before = true ->
  discoveries environ http_post registrable (sent w) before = true ->
  well_formed_server server = true ->
  field_or server "tools" (PList []) = PStr s ->
  s <> "" ->
  discovered (http_post (sent w + List.length before)
                (discovery_request environ server))
  = PList tds ->
  forallb named_tool tds = true ->
  forallb declared_server after = true ->
  discoveries environ http_post registrable
    (S (sent w + List.length before)) after = true ->
  fst (create_mcp_client_tools environ json_loads http_post w)
  = inr (registry environ http_post (sent w) before
           ++ map (wrapper server)
                (filter (fun td => substring_of (tool_name_of td) s) tds)
           ++ registry environ http_post (S (sent w + List.length before)) after)%list.
Proof.
  intros Hloads Hbefore Hdisc Hwf Hwl Hs Hfound Hnamed Hafter Hdisc'.
  destruct (create_mcp_client_tools_after environ json_loads http_post before
              (server :: after) w Hloads Hbefore Hdisc) as (w1 & Hsent & ->).
  rewrite <- Hsent in Hfound, Hdisc'.
  assert (Hiter : iter (discovered (http_post (sent w1)
                                      (discovery_request environ server)))
                  = inr tds) by now rewrite Hfound.
  destruct (register_servers_round_any server after tds
              (registry environ http_post (sent w) before) w1 Hwf Hiter)
    as (w2 & Hsent2 & Hround).
  apply well_formed_server_name in Hwf as [_ Hname].
  destruct (register_tools_text_whitelist server s tds Hname Hs Hnamed
              (registry environ http_post (sent w) before) w2)
    as (w3 & Hrun & Hsent3).
  rewrite <- Hsent2, <- Hsent3 in Hdisc'.
  edestruct (register_servers_registers environ http_post after Hafter)
    as (w4 & Hrest & _); [exact Hdisc'|].
  unfold bind at 1. rewrite Hround, Hwl. unfold bind at 1.
  rewrite Hrun, Hrest, Hsent3, Hsent2, Hsent.
  unfold bind, logger, ret. cbn [fst].
  now rewrite <- app_assoc.
Qed.

(** X21. A whitelist that is a number other than zero, or [true], stops the
    build at the first tool definition that is discovered: the membership
    test raises a type error. *)
Theorem create_mcp_client_tools_scalar_whitelist
        (before after tds : list value) (server td : value) (w : world) :
  json_loads (config_text environ) = inr (PList (before ++ server :: after)) ->
  forallb declared_server before = true ->
  discoveries environ http_post registrable (sent w) before = true ->
  well_formed_server server = true ->
  scalar (field_or server "tools" (PList [])) = true ->
  truthy (field_or server "tools" (PList [])) = true ->
  discovered (http_post (sent w + List.length before)
                (discovery_request environ server))
  = PList (td :: tds) ->
  is_dict td = true ->
  fst (create_mcp_client_tools environ json_loads http_post w)
  = inl (TypeError ("argument of type '"
                      ++ type_name (field_or server "tools" (PList []))
                      ++ "' is not iterable")).
Proof.
  intros Hloads Hbefore Hdisc Hwf Hscalar Htruthy Hfound Htd.
  destruct (create_mcp_client_tools_after environ json_loads http_post before
              (server :: after) w Hloads Hbefore Hdisc) as (w1 & Hsent & ->).
  rewrite <- Hsent in Hfound.
  assert (Hiter : iter (discovered (http_post (sent w1)
                                      (discovery_request environ server)))
                  = inr (td :: tds)) by now rewrite Hfound.
  destruct (register_servers_round_any server after (td :: tds)
              (registry environ http_post (sent w) before) w1 Hwf Hiter)
    as (w2 & _ & Hround).
  unfold bind at 1. rewrite Hround. unfold bind at 1.
  rewrite register_tools_cons. unfold bind at 1, lift at 1.
  destruct td as [| | | | |d]; try discriminate.
  unfold get. unfold bind at 1. rewrite Htruthy.
  unfold bind at 1, lift at 1.
  destruct (field_or server "tools" (PList [])); try discriminate;
    now destruct (lookup "name" d).
Qed.

End Whitelists.

(** ** Instances *)

Lemma run_returns_witness :
  exists text w',
    run sample_environ sample_json_loads echo_tool_name fs_read
      [mkCompletionMessage None; read_message] world0
    = (inr (mkToolResponse "call-1" "fs_read" text [("mcp_server", PStr "fs")]), w')
    /\ sent w' = 1.
Proof.
  exact (run_returns sample_environ sample_json_loads echo_tool_name
           fs_server read_tool (PDict [("path", PStr "/tmp")]) fs_read
           [mkCompletionMessage None; read_message] read_message read_call world0
           eq_refl eq_refl eq_refl eq_refl eq_refl).
Defined.

Lemma run_raises_witness :
  exists e,
    run sample_environ sample_json_loads echo_tool_name
      (wrapper urlless_server read_tool) [read_message] world0
    = (inl e, world0).
Proof.
  exact (run_raises sample_environ sample_json_loads echo_tool_name
           urlless_server read_tool (PDict [("path", PStr "/tmp")])
           (wrapper urlless_server read_tool)
           [read_message] read_message read_call world0
           eq_refl eq_refl eq_refl eq_refl eq_refl).
Defined.

Lemma run_reads_first_call_witness :
  run sample_environ sample_json_loads echo_tool_name fs_read
    [read_message] world0
  = run sample_environ sample_json_loads echo_tool_name fs_read
      [read_message;
       mkCompletionMessage
         (Some [mkToolCall "call-1" "another_tool" (tc_arguments read_call);
                mkToolCall "call-2" "fs_read" (PDict [])])]
      world0.
Proof.
  exact (run_reads_first_call sample_environ sample_json_loads echo_tool_name
           fs_read [read_message]
           [read_message;
            mkCompletionMessage
              (Some [mkToolCall "call-1" "another_tool" (tc_arguments read_call);
                     mkToolCall "call-2" "fs_read" (PDict [])])]
           read_message
           (mkCompletionMessage
              (Some [mkToolCall "call-1" "another_tool" (tc_arguments read_call);
                     mkToolCall "call-2" "fs_read" (PDict [])]))
           read_call
           (mkToolCall "call-1" "another_tool" (tc_arguments read_call))
           world0 eq_refl eq_refl eq_refl eq_refl eq_refl eq_refl).
Defined.

Lemma create_mcp_client_tools_requests_witness :
  exists tools w',
    create_mcp_client_tools two_servers_environ sample_json_loads
      (answers (tools_answer [read_tool; write_tool])) world0
    = (inr tools, w')
    /\ sent w' = 2.
Proof.
  destruct (create_mcp_client_tools_requests two_servers_environ sample_json_loads
              (answers (tools_answer [read_tool; write_tool]))
              [files_server; db_server] world0 eq_refl eq_refl eq_refl)
    as (tools & w' & Hrun & Hsent & _).
  now exists tools, w'.
Defined.

Lemma create_mcp_client_tools_isolates_failure_witness :
  match fst (create_mcp_client_tools two_servers_environ sample_json_loads
               fails_first world0) with
  | inr tools => map get_name tools = ["db_read"; "db_write"]
  | inl _ => False
  end.
Proof.
  rewrite (create_mcp_client_tools_isolates_failure two_servers_environ
             sample_json_loads fails_first [] [db_server] files_server
             (OtherError "ConnectError" "All connection attempts failed") world0
             eq_refl eq_refl eq_refl eq_refl eq_refl).
  reflexivity.
Defined.

Lemma create_mcp_client_tools_stops_at_ill_formed_witness :
  exists e,
    fst (create_mcp_client_tools
           (config_environ ("[" ++ db_text ++ ", " ++ nameless_text ++ "]"))
           more_json_loads (answers (tools_answer [read_tool; write_tool])) world0)
    = inl e.
Proof.
  exact (create_mcp_client_tools_stops_at_ill_formed
           (config_environ ("[" ++ db_text ++ ", " ++ nameless_text ++ "]"))
           more_json_loads (answers (tools_answer [read_tool; write_tool]))
           [db_server] [] nameless_server world0
           eq_refl eq_refl eq_refl eq_refl).
Defined.

Lemma create_mcp_client_tools_first_no_object_witness :
  fst (create_mcp_client_tools
         (config_environ ("{" ++ member "path" (quoted "/tmp") ++ "}"))
         sample_json_loads unreachable world0)
  = inl (AttributeError "'str' object has no attribute 'get'").
Proof.
  exact (create_mcp_client_tools_first_no_object
           (config_environ ("{" ++ member "path" (quoted "/tmp") ++ "}"))
           sample_json_loads unreachable
           (PDict [("path", PStr "/tmp")]) (PStr "path") [] world0
           eq_refl eq_refl eq_refl).
Defined.

Lemma create_mcp_client_tools_tool_no_object_witness :
  fst (create_mcp_client_tools (config_environ ("[" ++ db_text ++ "]"))
         sample_json_loads (answers keyed_tools_answer) world0)
  = inl (AttributeError "'str' object has no attribute 'get'").
Proof.
  exact (create_mcp_client_tools_tool_no_object
           (config_environ ("[" ++ db_text ++ "]")) sample_json_loads
           (answers keyed_tools_answer) [] [] [] [] db_server (PStr "read") world0
           eq_refl eq_refl eq_refl eq_refl eq_refl eq_refl).
Defined.

Lemma create_mcp_client_tools_text_whitelist_witness :
  match fst (create_mcp_client_tools
               (config_environ ("[" ++ text_whitelist_text ++ "]"))
               whitelist_json_loads
               (answers (tools_answer [read_tool; PDict [("name", PStr "delete")];
                                       PDict [("name", PStr "d_w")]]))
               world0) with
  | inr tools => map get_name tools = ["db_read"; "db_d_w"]
  | inl _ => False
  end.
Proof.
  rewrite (create_mcp_client_tools_text_whitelist
             (config_environ ("[" ++ text_whitelist_text ++ "]"))
             whitelist_json_loads
             (answers (tools_answer [read_tool; PDict [("name", PStr "delete")];
                                     PDict [("name", PStr "d_w")]]))
             [] [] [read_tool; PDict [("name", PStr "delete")];
                    PDict [("name", PStr "d_w")]]
             text_whitelist_server "read_write" world0
             eq_refl eq_refl eq_refl eq_refl eq_refl).
  - reflexivity.
  - discriminate.
  - reflexivity.
  - reflexivity.
  - reflexivity.
  - reflexivity.
Defined.

Lemma create_mcp_client_tools_scalar_whitelist_witness :
  fst (create_mcp_client_tools
         (config_environ ("[" ++ number_whitelist_text ++ "]"))
         whitelist_json_loads (answers (tools_answer [read_tool])) world0)
  = inl (TypeError "argument of type 'int' is not iterable").
Proof.
  exact (create_mcp_client_tools_scalar_whitelist
           (config_environ ("[" ++ number_whitelist_text ++ "]"))
           whitelist_json_loads (answers (tools_answer [read_tool]))
           [] [] [] number_whitelist_server read_tool world0
           eq_refl eq_refl eq_refl eq_refl eq_refl eq_refl eq_refl eq_refl).
Defined.
